(** * Hotel booking system: operations with undo (exam_prac.py)

    A shallow embedding of [src/exam_prac.py].  The Python program keeps one
    aggregate object ([Hotel]) and a family of command objects ([Operation])
    that mutate the aggregate in [execute] and revert the mutation in [undo].
    Operation objects are mutable and are stored {e by reference} in
    [Hotel.history], so the embedding keeps an explicit object store for them
    and the history is a list of references into that store. *)

From Stdlib Require Import ZArith String List Lia.
From stdpp Require Import base option list gmap strings.

Open Scope string_scope.
Open Scope list_scope.
Open Scope Z_scope.

(** ** Domain records *)

(** [datetime.date]: compared as the triple (year, month, day). *)
Record date := Date { year : Z; month : Z; day : Z }.

Definition date_cmp (a b : date) : comparison :=
  match year a ?= year b with
  | Eq => match month a ?= month b with
          | Eq => day a ?= day b
          | c => c
          end
  | c => c
  end.

(** [a < b] and [a >= b] on dates. *)
Definition date_lt (a b : date) : bool :=
  match date_cmp a b with Lt => true | _ => false end.

Definition date_ge (a b : date) : bool :=
  match date_cmp a b with Lt => false | _ => true end.

Record Room := mkRoom {
  number : Z;
  capacity : Z;
  price_per_night : Z
}.

Record Guest := mkGuest {
  guest_id : Z;
  name : string
}.

Record Booking := mkBooking {
  booking_id : Z;
  booking_guest_id : Z;
  room_number : Z;
  check_in_date : date;
  check_out_date : date;
  status : string
}.

(** [booking.status = s]: in-place mutation of one attribute. *)
Definition set_status (s : string) (b : Booking) : Booking :=
  mkBooking (booking_id b) (booking_guest_id b) (room_number b)
            (check_in_date b) (check_out_date b) s.

(** ** Operation objects and the aggregate *)

(** A reference to an operation object. *)
Definition loc := nat.

(** The six subclasses of [Operation], each with its constructor parameters
    followed by the private attribute its [execute] overwrites. *)
Inductive Operation :=
| AddRoom (number capacity price_per_night : Z) (_added : bool)
| RegisterGuest (name : string) (guest_id : option Z)
| CreateBooking (guest_id room_number : Z) (check_in_date check_out_date : date)
                (booking_id : option Z)
| CancelBooking (booking_id : Z) (_prev_status : option string)
| CheckIn (booking_id : Z) (_prev_status : option string)
| CheckOut (booking_id : Z) (_prev_status : option string).

Record Hotel := mkHotel {
  rooms : gmap Z Room;
  guests : gmap Z Guest;
  bookings : gmap Z Booking;
  _next_guest_id : Z;
  _next_booking_id : Z;
  history : list loc
}.

(** [Hotel.__init__] *)
Definition Hotel__init__ : Hotel := mkHotel ∅ ∅ ∅ 1 1 [].

Definition set_rooms (f : gmap Z Room → gmap Z Room) (h : Hotel) : Hotel :=
  mkHotel (f (rooms h)) (guests h) (bookings h)
          (_next_guest_id h) (_next_booking_id h) (history h).

Definition set_guests (f : gmap Z Guest → gmap Z Guest) (h : Hotel) : Hotel :=
  mkHotel (rooms h) (f (guests h)) (bookings h)
          (_next_guest_id h) (_next_booking_id h) (history h).

Definition set_bookings (f : gmap Z Booking → gmap Z Booking) (h : Hotel) : Hotel :=
  mkHotel (rooms h) (guests h) (f (bookings h))
          (_next_guest_id h) (_next_booking_id h) (history h).

Definition set_next_guest_id (n : Z) (h : Hotel) : Hotel :=
  mkHotel (rooms h) (guests h) (bookings h) n (_next_booking_id h) (history h).

Definition set_next_booking_id (n : Z) (h : Hotel) : Hotel :=
  mkHotel (rooms h) (guests h) (bookings h) (_next_guest_id h) n (history h).

Definition set_history (f : list loc → list loc) (h : Hotel) : Hotel :=
  mkHotel (rooms h) (guests h) (bookings h)
          (_next_guest_id h) (_next_booking_id h) (f (history h)).

(** The program state: the hotel and the store of operation objects.  An
    object's reference is its index in [heap]; objects are never freed. *)
Record World := mkWorld {
  hotel : Hotel;
  heap : list Operation
}.

(** ** Exceptions and the state-and-exception monad *)

(** Every validation failure in the source is a [ValueError] with a message.
    [InvalidReference] has no Python counterpart: it is the outcome of
    dereferencing an index that denotes no object, which cannot happen to a
    Python reference. *)
Inductive exn :=
| ValueError (msg : string)
| InvalidReference.

Inductive outcome (A : Type) :=
| Return (a : A)
| Raise (e : exn).
Arguments Return {A} a.
Arguments Raise {A} e.

(** A computation returns or raises, and in both cases leaves a state
    behind: a raise does not roll anything back. *)
Definition M (A : Type) : Type := World → outcome A * World.

Definition raise {A} (e : exn) : M A := fun w => (Raise e, w).

#[global] Instance M_ret : MRet M := fun A a w => (Return a, w).

#[global] Instance M_bind : MBind M := fun A B k m w =>
  match m w with
  | (Return a, w') => k a w'
  | (Raise e, w') => (Raise e, w')
  end.

Definition get_hotel : M Hotel := fun w => (Return (hotel w), w).

Definition modify_hotel (f : Hotel → Hotel) : M unit :=
  fun w => (Return tt, mkWorld (f (hotel w)) (heap w)).

(** Read the object behind a reference. *)
Definition deref (l : loc) : M Operation :=
  fun w => match heap w !! l with
           | Some op => (Return op, w)
           | None => (Raise InvalidReference, w)
           end.

(** Overwrite the attributes of the object behind a reference. *)
Definition assign (l : loc) (op : Operation) : M unit :=
  fun w => (Return tt, mkWorld (hotel w) (<[l := op]> (heap w))).

(** Allocate a new object; its reference is returned. *)
Definition new (op : Operation) : M loc :=
  fun w => (Return (length (heap w)), mkWorld (hotel w) (heap w ++ [op])).

(** [k in d] for a dict [d]. *)
Definition dict_in {V} (k : Z) (d : gmap Z V) : bool :=
  match d !! k with Some _ => true | None => false end.

(** ** Error messages of the source *)

Definition EmptyHistory : exn :=
  ValueError "Нет операций для отмены.".
Definition DuplicateRoom : exn :=
  ValueError "Номер с таким номером уже номер(уже существует).".
Definition UnknownGuest : exn :=
  ValueError "Гость не зарегистрирован.".
Definition UnknownRoom : exn :=
  ValueError "Такого номера нет.".
Definition InvalidDateRange : exn :=
  ValueError "Дата выезда должна быть позже даты заезда.".
Definition RoomUnavailable : exn :=
  ValueError "Номер недоступен на выбранные даты.".
Definition UnknownBooking : exn :=
  ValueError "Бронирование не найдено.".
Definition AlreadyCheckedOut : exn :=
  ValueError "Нельзя отменить: гость уже выехал.".
Definition AlreadyCancelled : exn :=
  ValueError "Бронирование уже отменено.".
Definition InvalidTransition_CheckIn : exn :=
  ValueError "Заезд возможен только для статуса 'booked'.".
Definition InvalidTransition_CheckOut : exn :=
  ValueError "Выезд возможен только для статуса 'checked_in'.".

(** ** The operations

    Each method takes the attributes of [self] as they are when it is called
    (see the dispatch in [execute] and [undo] below) and writes the new ones
    back with [assign]. *)

(** [class AddRoom] (lines 82-97) *)
Module AddRoomOp.
Definition execute (self : loc) (number capacity price_per_night : Z)
    (_added : bool) : M unit :=
  h ← get_hotel;
  if dict_in number (rooms h) then raise DuplicateRoom
  else
    modify_hotel (set_rooms <[number := mkRoom number capacity price_per_night]>);;
    assign self (AddRoom number capacity price_per_night true).

Definition undo (number : Z) (_added : bool) : M unit :=
  h ← get_hotel;
  if _added && dict_in number (rooms h)
  then modify_hotel (set_rooms (delete number))
  else mret tt.
End AddRoomOp.

(** [class RegisterGuest] (lines 100-112) *)
Module RegisterGuestOp.
Definition execute (self : loc) (name : string) (guest_id : option Z) : M unit :=
  h ← get_hotel;
  let guest_id := _next_guest_id h in
  assign self (RegisterGuest name (Some guest_id));;
  modify_hotel (set_next_guest_id (_next_guest_id h + 1));;
  modify_hotel (set_guests <[guest_id := mkGuest guest_id name]>).

Definition undo (guest_id : option Z) : M unit :=
  h ← get_hotel;
  match guest_id with
  | Some g =>
      if dict_in g (guests h) then modify_hotel (set_guests (delete g))
      else mret tt
  | None => mret tt
  end.
End RegisterGuestOp.

(** [class CreateBooking] (lines 115-161) *)
Module CreateBookingOp.
Definition _dates_overlap (a_start a_end b_start b_end : date) : bool :=
  date_lt a_start b_end && date_lt b_start a_end.

(** The [for] loop over [hotel.bookings.values()], on the values still to
    visit: [continue] goes on with the rest, [return False] stops the
    scan.  [self_room_number] and the dates are the attributes of [self].
    The values are visited in the order of [map_to_list], not in the dict's
    insertion order; [scan_spec] shows the answer depends on no order. *)
Fixpoint scan (self_room_number : Z) (self_check_in_date self_check_out_date : date)
    (values : list Booking) : bool :=
  match values with
  | [] => true
  | booking :: rest =>
      if negb (room_number booking =? self_room_number)
      then scan self_room_number self_check_in_date self_check_out_date rest
      else if String.eqb (status booking) "cancelled"
              || String.eqb (status booking) "checked_out"
      then scan self_room_number self_check_in_date self_check_out_date rest
      else if _dates_overlap self_check_in_date self_check_out_date
                (check_in_date booking) (check_out_date booking)
      then false
      else scan self_room_number self_check_in_date self_check_out_date rest
  end.

Definition _room_is_available (self_room_number : Z)
    (self_check_in_date self_check_out_date : date) (h : Hotel) : bool :=
  scan self_room_number self_check_in_date self_check_out_date
       (snd <$> map_to_list (bookings h)).

Definition execute (self : loc) (guest_id room_number : Z)
    (check_in_date check_out_date : date) (booking_id : option Z) : M unit :=
  h ← get_hotel;
  if negb (dict_in guest_id (guests h)) then raise UnknownGuest
  else if negb (dict_in room_number (rooms h)) then raise UnknownRoom
  else if date_ge check_in_date check_out_date then raise InvalidDateRange
  else if negb (_room_is_available room_number check_in_date check_out_date h)
  then raise RoomUnavailable
  else
    let booking_id := _next_booking_id h in
    assign self (CreateBooking guest_id room_number check_in_date
                               check_out_date (Some booking_id));;
    modify_hotel (set_next_booking_id (_next_booking_id h + 1));;
    modify_hotel (set_bookings
      <[booking_id := mkBooking booking_id guest_id room_number
                                check_in_date check_out_date "booked"]>).

Definition undo (booking_id : option Z) : M unit :=
  h ← get_hotel;
  match booking_id with
  | Some b =>
      if dict_in b (bookings h) then modify_hotel (set_bookings (delete b))
      else mret tt
  | None => mret tt
  end.
End CreateBookingOp.

(** The [undo] shared, word for word, by [CancelBooking], [CheckIn] and
    [CheckOut]. *)
Definition restore_status (booking_id : Z) (_prev_status : option string) : M unit :=
  h ← get_hotel;
  match bookings h !! booking_id with
  | None => mret tt
  | Some booking =>
      match _prev_status with
      | Some s => modify_hotel (set_bookings <[booking_id := set_status s booking]>)
      | None => mret tt
      end
  end.

(** [class CancelBooking] (lines 164-186) *)
Module CancelBookingOp.
Definition execute (self : loc) (booking_id : Z) (_prev_status : option string)
    : M unit :=
  h ← get_hotel;
  match bookings h !! booking_id with
  | None => raise UnknownBooking
  | Some booking =>
      if String.eqb (status booking) "checked_out" then raise AlreadyCheckedOut
      else if String.eqb (status booking) "cancelled" then raise AlreadyCancelled
      else
        assign self (CancelBooking booking_id (Some (status booking)));;
        modify_hotel (set_bookings <[booking_id := set_status "cancelled" booking]>)
  end.

Definition undo := restore_status.
End CancelBookingOp.

(** [class CheckIn] (lines 189-209) *)
Module CheckInOp.
Definition execute (self : loc) (booking_id : Z) (_prev_status : option string)
    : M unit :=
  h ← get_hotel;
  match bookings h !! booking_id with
  | None => raise UnknownBooking
  | Some booking =>
      if negb (String.eqb (status booking) "booked")
      then raise InvalidTransition_CheckIn
      else
        assign self (CheckIn booking_id (Some (status booking)));;
        modify_hotel (set_bookings <[booking_id := set_status "checked_in" booking]>)
  end.

Definition undo := restore_status.
End CheckInOp.

(** [class CheckOut] (lines 212-232) *)
Module CheckOutOp.
Definition execute (self : loc) (booking_id : Z) (_prev_status : option string)
    : M unit :=
  h ← get_hotel;
  match bookings h !! booking_id with
  | None => raise UnknownBooking
  | Some booking =>
      if negb (String.eqb (status booking) "checked_in")
      then raise InvalidTransition_CheckOut
      else
        assign self (CheckOut booking_id (Some (status booking)));;
        modify_hotel (set_bookings <[booking_id := set_status "checked_out" booking]>)
  end.

Definition undo := restore_status.
End CheckOutOp.

(** Dynamic dispatch of [operation.execute(hotel)] and [operation.undo(hotel)]
    on the class of the object behind the reference. *)
Definition execute (operation : loc) : M unit :=
  op ← deref operation;
  match op with
  | AddRoom n c p a => AddRoomOp.execute operation n c p a
  | RegisterGuest nm g => RegisterGuestOp.execute operation nm g
  | CreateBooking g r ci co b => CreateBookingOp.execute operation g r ci co b
  | CancelBooking b s => CancelBookingOp.execute operation b s
  | CheckIn b s => CheckInOp.execute operation b s
  | CheckOut b s => CheckOutOp.execute operation b s
  end.

Definition undo (operation : loc) : M unit :=
  op ← deref operation;
  match op with
  | AddRoom n _ _ a => AddRoomOp.undo n a
  | RegisterGuest _ g => RegisterGuestOp.undo g
  | CreateBooking _ _ _ _ b => CreateBookingOp.undo b
  | CancelBooking b s => CancelBookingOp.undo b s
  | CheckIn b s => CheckInOp.undo b s
  | CheckOut b s => CheckOutOp.undo b s
  end.

(** ** The two entry points of the aggregate *)

(** [Hotel.apply] *)
Definition apply (operation : loc) : M unit :=
  execute operation;;
  modify_hotel (set_history (λ hs, hs ++ [operation])).

(** [Hotel.undo_last]: [history.pop()] takes the last element. *)
Definition undo_last : M unit :=
  h ← get_hotel;
  match last (history h) with
  | None => raise EmptyHistory
  | Some operation =>
      modify_hotel (set_history (@removelast loc));;
      undo operation
  end.

(** ** Callers *)

(** The constructor calls a caller can make; [__init__] gives the attribute
    values each constructor sets. *)
Inductive ctor :=
| NewAddRoom (number capacity price_per_night : Z)
| NewRegisterGuest (name : string)
| NewCreateBooking (guest_id room_number : Z) (check_in_date check_out_date : date)
| NewCancelBooking (booking_id : Z)
| NewCheckIn (booking_id : Z)
| NewCheckOut (booking_id : Z).

Definition __init__ (c : ctor) : Operation :=
  match c with
  | NewAddRoom n cap p => AddRoom n cap p false
  | NewRegisterGuest nm => RegisterGuest nm None
  | NewCreateBooking g r ci co => CreateBooking g r ci co None
  | NewCancelBooking b => CancelBooking b None
  | NewCheckIn b => CheckIn b None
  | NewCheckOut b => CheckOut b None
  end.

(** What a caller can do to a hotel: construct an operation, pass an
    operation it holds to [apply], or call [undo_last]. *)
Inductive call :=
| Construct (c : ctor)
| Apply (operation : loc)
| UndoLast.

Definition do_call (c : call) : M unit :=
  match c with
  | Construct k => new (__init__ k);; mret tt
  | Apply l => apply l
  | UndoLast => undo_last
  end.

(** Fresh process: a new [Hotel()] and no operation objects. *)
Definition init : World := mkWorld Hotel__init__ [].

(** A caller that goes on after an exception (it catches it): the next call
    starts from the state the raise left behind. *)
Fixpoint run (cs : list call) (w : World) : World :=
  match cs with
  | [] => w
  | c :: cs' => run cs' (snd (do_call c w))
  end.

(** Did every call of the sequence return normally? *)
Fixpoint all_return (cs : list call) (w : World) : bool :=
  match cs with
  | [] => true
  | c :: cs' =>
      match do_call c w with
      | (Return _, w') => all_return cs' w'
      | (Raise _, _) => false
      end
  end.

(** ** Notions used by the specification *)

(** A booking still occupies its room unless it is cancelled or checked
    out: the test of the availability scan. *)
Definition blocks (b : Booking) : bool :=
  negb (String.eqb (status b) "cancelled" || String.eqb (status b) "checked_out").

(** The half-open ranges of two dates pairs overlap. *)
Definition ranges_overlap (a_start a_end b_start b_end : date) : Prop :=
  date_lt a_start b_end = true ∧ date_lt b_start a_end = true.

(** The code of [execute] and [undo] read as pure functions of the object
    and the hotel (lemmas [execute_eq] and [undo_eq] prove they are what the
    monadic code computes): [execute_pure] gives the exception, or the
    object's new attributes and the new hotel; [undo_hotel] the hotel after
    [undo], which never raises and leaves the object alone. *)
Definition execute_pure (op : Operation) (h : Hotel) : exn + Operation * Hotel :=
  match op with
  | AddRoom n c p _ =>
      if dict_in n (rooms h) then inl DuplicateRoom
      else inr (AddRoom n c p true, set_rooms <[n := mkRoom n c p]> h)
  | RegisterGuest nm _ =>
      let g := _next_guest_id h in
      inr (RegisterGuest nm (Some g),
           set_guests <[g := mkGuest g nm]> (set_next_guest_id (g + 1) h))
  | CreateBooking g r ci co _ =>
      if negb (dict_in g (guests h)) then inl UnknownGuest
      else if negb (dict_in r (rooms h)) then inl UnknownRoom
      else if date_ge ci co then inl InvalidDateRange
      else if negb (CreateBookingOp._room_is_available r ci co h)
      then inl RoomUnavailable
      else
        let b := _next_booking_id h in
        inr (CreateBooking g r ci co (Some b),
             set_bookings <[b := mkBooking b g r ci co "booked"]>
               (set_next_booking_id (b + 1) h))
  | CancelBooking b _ =>
      match bookings h !! b with
      | None => inl UnknownBooking
      | Some booking =>
          if String.eqb (status booking) "checked_out" then inl AlreadyCheckedOut
          else if String.eqb (status booking) "cancelled" then inl AlreadyCancelled
          else inr (CancelBooking b (Some (status booking)),
                    set_bookings <[b := set_status "cancelled" booking]> h)
      end
  | CheckIn b _ =>
      match bookings h !! b with
      | None => inl UnknownBooking
      | Some booking =>
          if negb (String.eqb (status booking) "booked")
          then inl InvalidTransition_CheckIn
          else inr (CheckIn b (Some (status booking)),
                    set_bookings <[b := set_status "checked_in" booking]> h)
      end
  | CheckOut b _ =>
      match bookings h !! b with
      | None => inl UnknownBooking
      | Some booking =>
          if negb (String.eqb (status booking) "checked_in")
          then inl InvalidTransition_CheckOut
          else inr (CheckOut b (Some (status booking)),
                    set_bookings <[b := set_status "checked_out" booking]> h)
      end
  end.

Definition restore_status_pure (b : Z) (prev : option string)
    (bs : gmap Z Booking) : gmap Z Booking :=
  match bs !! b, prev with
  | Some booking, Some s => <[b := set_status s booking]> bs
  | _, _ => bs
  end.

Definition undo_hotel (op : Operation) (h : Hotel) : Hotel :=
  match op with
  | AddRoom n _ _ a =>
      if a && dict_in n (rooms h) then set_rooms (delete n) h else h
  | RegisterGuest _ (Some g) =>
      if dict_in g (guests h) then set_guests (delete g) h else h
  | CreateBooking _ _ _ _ (Some b) =>
      if dict_in b (bookings h) then set_bookings (delete b) h else h
  | CancelBooking b prev | CheckIn b prev | CheckOut b prev =>
      set_bookings (restore_status_pure b prev) h
  | _ => h
  end.


(** Every key of [guests] and [bookings] was handed out by its counter. *)
Definition ids_below (h : Hotel) : Prop :=
  (∀ k, is_Some (guests h !! k) → k < _next_guest_id h)
  ∧ (∀ k, is_Some (bookings h !! k) → k < _next_booking_id h).



(** Register guest A, undo, register guest B. *)
Definition register_undo_register : list call :=
  [ Construct (NewRegisterGuest "A"); Apply 0%nat; UndoLast;
    Construct (NewRegisterGuest "B"); Apply 1%nat ].



(** One CreateBooking object applied twice: the second [execute] overwrites
    the booking id the first one recorded. *)
Definition reuse_trace : list call :=
  [ Construct (NewAddRoom 101 2 3500); Apply 0%nat;
    Construct (NewRegisterGuest "G"); Apply 1%nat;
    Construct (NewCreateBooking 1 101 (Date 2026 1 25) (Date 2026 1 28));
    Apply 2%nat;
    Construct (NewCancelBooking 1); Apply 3%nat;
    Construct (NewCreateBooking 1 101 (Date 2026 1 25) (Date 2026 1 28));
    Apply 4%nat;
    Construct (NewCheckIn 2); Apply 5%nat;
    Construct (NewCheckOut 2); Apply 6%nat;
    Apply 4%nat;
    UndoLast; UndoLast; UndoLast; UndoLast; UndoLast ].

(** The scenario of the driver at the end of the source. *)
Definition driver_trace : list call :=
  [ Construct (NewAddRoom 101 2 3500); Apply 0%nat;
    Construct (NewAddRoom 102 3 4500); Apply 1%nat;
    Construct (NewRegisterGuest "G"); Apply 2%nat;
    Construct (NewCreateBooking 1 101 (Date 2026 1 25) (Date 2026 1 28));
    Apply 3%nat;
    Construct (NewCheckIn 1); Apply 4%nat;
    Construct (NewCheckOut 1); Apply 5%nat;
    UndoLast;
    Construct (NewCancelBooking 1); Apply 6%nat;
    UndoLast ].

(** *** Concrete scenarios *)

(** Room 101, guest 1 and booking 1 for [2026-01-25, 2026-01-28). *)
Definition booked_trace : list call :=
  [ Construct (NewAddRoom 101 2 3500); Apply 0%nat;
    Construct (NewRegisterGuest "G"); Apply 1%nat;
    Construct (NewCreateBooking 1 101 (Date 2026 1 25) (Date 2026 1 28));
    Apply 2%nat ].

(** ... then booking 1 is checked in. *)
Definition checked_in_trace : list call :=
  booked_trace ++ [ Construct (NewCheckIn 1); Apply 3%nat ].

(** Booking 1 is booked and object 3 is a [CheckOut(1)] not yet applied. *)
Definition booked_world : World :=
  run (booked_trace ++ [ Construct (NewCheckOut 1) ]) init.

(** Booking 1 is booked and object 3 is a [CreateBooking] for the same room
    and [2026-01-27, 2026-01-29), not yet applied. *)
Definition conflict_world : World :=
  run (booked_trace
       ++ [ Construct (NewCreateBooking 1 101 (Date 2026 1 27) (Date 2026 1 29)) ])
      init.

(** Booking 1 is checked in and object 4 is a second [CheckIn(1)]. *)
Definition checked_in_world : World :=
  run (checked_in_trace ++ [ Construct (NewCheckIn 1) ]) init.

(** A fresh hotel and one [AddRoom(7, 0, -5)] object. *)
Definition odd_room_world : World :=
  run [ Construct (NewAddRoom 7 0 (-5)) ] init.

(** A fresh hotel and one [RegisterGuest("A")] object. *)
Definition one_guest_object_world : World :=
  run [ Construct (NewRegisterGuest "A") ] init.

(** [hotel.apply(Op(...))]: construct an operation and apply it at once, as
    the driver at the end of the source does. *)
Definition apply_new (c : ctor) : M unit :=
  operation ← new (__init__ c);
  apply operation.

(** ** Notions used by the further properties *)

(** The four statuses the code ever writes. *)
Definition valid_status (s : string) : Prop :=
  s = "booked" ∨ s = "checked_in" ∨ s = "checked_out" ∨ s = "cancelled".

(** The [_prev_status] attribute of an operation object, if it has one. *)
Definition remembered_status (op : Operation) : option string :=
  match op with
  | CancelBooking _ prev | CheckIn _ prev | CheckOut _ prev => prev
  | _ => None
  end.

(** What holds of every state the two entry points can produce: records
    sit under their own identifier, identifiers handed out by a counter lie
    between 1 and the counter, statuses are among the four, each booking
    starts before it ends, and the history refers to existing objects. *)
Definition well_formed (w : World) : Prop :=
  1 ≤ _next_guest_id (hotel w)
  ∧ 1 ≤ _next_booking_id (hotel w)
  ∧ (∀ k r, rooms (hotel w) !! k = Some r → number r = k)
  ∧ (∀ k g, guests (hotel w) !! k = Some g →
       guest_id g = k ∧ 1 ≤ k < _next_guest_id (hotel w))
  ∧ (∀ k b, bookings (hotel w) !! k = Some b →
       booking_id b = k ∧ 1 ≤ k < _next_booking_id (hotel w)
       ∧ valid_status (status b)
       ∧ date_lt (check_in_date b) (check_out_date b) = true)
  ∧ (∀ l op s, heap w !! l = Some op → remembered_status op = Some s →
       valid_status s)
  ∧ (∀ l, l ∈ history (hotel w) → is_Some (heap w !! l)).

(** [hotel.apply(Op1(...)); hotel.apply(Op2(...)); ...]: freshly constructed
    operations applied one after the other, stopping at the first raise. *)
Fixpoint apply_all (cs : list ctor) : M unit :=
  match cs with
  | [] => mret tt
  | c :: cs' => apply_new c;; apply_all cs'
  end.

(** [hotel.undo_last()] called [n] times in a row. *)
Fixpoint undo_times (n : nat) : M unit :=
  match n with
  | O => mret tt
  | S n' => undo_last;; undo_times n'
  end.

(** Two hotels with the same rooms, guests, bookings and history (the
    counters may differ). *)
Definition same_records (h1 h2 : Hotel) : Prop :=
  rooms h1 = rooms h2 ∧ guests h1 = guests h2
  ∧ bookings h1 = bookings h2 ∧ history h1 = history h2.



(** The operation has been through a returning [execute]: the attribute its
    [undo] tests is set. *)
Definition has_executed (op : Operation) : Prop :=
  match op with
  | AddRoom _ _ _ a => a = true
  | RegisterGuest _ g => is_Some g
  | CreateBooking _ _ _ _ b => is_Some b
  | CancelBooking _ prev | CheckIn _ prev | CheckOut _ prev => is_Some prev
  end.

(** ** Basic facts about the monadic code *)

Ltac munfold :=
  unfold apply_new, apply, undo_last, execute, undo,
    AddRoomOp.execute, AddRoomOp.undo,
    RegisterGuestOp.execute, RegisterGuestOp.undo,
    CreateBookingOp.execute, CreateBookingOp.undo,
    CancelBookingOp.execute, CancelBookingOp.undo,
    CheckInOp.execute, CheckInOp.undo,
    CheckOutOp.execute, CheckOutOp.undo, restore_status,
    mbind, M_bind, mret, M_ret, get_hotel, modify_hotel, deref, assign, new, raise in *.

Lemma dict_in_true {V} (k : Z) (d : gmap Z V) :
  dict_in k d = true ↔ is_Some (d !! k).
Proof.
  unfold dict_in. destruct (d !! k); split; intros H; try done.
Qed.

Lemma dict_in_false {V} (k : Z) (d : gmap Z V) :
  dict_in k d = false ↔ d !! k = None.
Proof. unfold dict_in. destruct (d !! k); split; intros H; done. Qed.

(** Claim C10.  [AddRoom.execute] validates nothing but the room number:
    for every integer capacity and price (zero and negative ones too),
    when the number is free it returns and inserts the room with exactly
    the given attributes, marking the object as added; when the number is
    taken it raises the duplicate-room error and changes nothing. *)
Theorem AddRoom_execute_checks_only_duplicates
    (w : World) (self : loc) (n c p : Z) (a : bool) :
  heap w !! self = Some (AddRoom n c p a) →
  (rooms (hotel w) !! n = None →
     execute self w =
       (Return tt,
        mkWorld (set_rooms <[n := mkRoom n c p]> (hotel w))
                (<[self := AddRoom n c p true]> (heap w)))
     ∧ rooms (hotel (snd (execute self w))) !! n = Some (mkRoom n c p))
  ∧ (is_Some (rooms (hotel w) !! n) → execute self w = (Raise DuplicateRoom, w)).
Proof.
  intros Hself. split.
  - intros Hfree. munfold. rewrite Hself. cbn.
    apply dict_in_false in Hfree. rewrite Hfree. cbn.
    split; [done|]. apply lookup_insert_eq.
  - intros Hdup. munfold. rewrite Hself. cbn.
    apply dict_in_true in Hdup. by rewrite Hdup.
Qed.

(** [execute] either raises before its first mutation or returns. *)
Lemma execute_raise_unchanged (operation : loc) (w w' : World) (e : exn) :
  execute operation w = (Raise e, w') → w' = w.
Proof.
  munfold. destruct (heap w !! operation) as [[]|]; cbn;
    repeat (match goal with
            | |- context [match ?x with _ => _ end] => destruct x; cbn
            end); congruence.
Qed.

Lemma undo_returns (operation : loc) (w : World) (op : Operation) :
  heap w !! operation = Some op →
  ∃ h', undo operation w = (Return tt, mkWorld h' (heap w))
        ∧ history h' = history (hotel w)
        ∧ _next_guest_id h' = _next_guest_id (hotel w)
        ∧ _next_booking_id h' = _next_booking_id (hotel w).
Proof.
  intros Hop. munfold. rewrite Hop. destruct w as [h hp]. destruct op; cbn;
    repeat (match goal with
            | |- context [match ?x with _ => _ end] => destruct x; cbn
            end); eexists; (split; [reflexivity|]); done.
Qed.

(** Claim C2.  Failed [execute] is atomic: whatever the operation object
    and the state, if [execute] raises, then the state it leaves behind is
    the state it started from (rooms, guests, bookings, both counters, the
    history and the operation objects), and [apply] raises the same
    exception from that same state, so nothing was appended to the
    history. *)
Theorem failed_execute_is_atomic
    (operation : loc) (w w' : World) (e : exn) :
  execute operation w = (Raise e, w') →
  w' = w ∧ apply operation w = (Raise e, w).
Proof.
  intros Hex. pose proof (execute_raise_unchanged _ _ _ _ Hex) as ->.
  split; [done|]. unfold apply, mbind, M_bind. by rewrite Hex.
Qed.

(** Claim C5.  For a booking present in the hotel: [CheckIn.execute]
    raises its invalid-transition error whenever the status is not
    'booked', [CheckOut.execute] raises its own whenever the status is not
    'checked_in', [CancelBooking.execute] raises the already-cancelled error
    on 'cancelled' and the already-checked-out error on 'checked_out'; each
    time the state, hence the booking's status, is unchanged. *)
Theorem status_machine_enforced
    (w : World) (self : loc) (bid : Z) (prev : option string) (b : Booking) :
  bookings (hotel w) !! bid = Some b →
  (heap w !! self = Some (CheckIn bid prev) → status b ≠ "booked" →
     execute self w = (Raise InvalidTransition_CheckIn, w))
  ∧ (heap w !! self = Some (CheckOut bid prev) → status b ≠ "checked_in" →
     execute self w = (Raise InvalidTransition_CheckOut, w))
  ∧ (heap w !! self = Some (CancelBooking bid prev) → status b = "cancelled" →
     execute self w = (Raise AlreadyCancelled, w))
  ∧ (heap w !! self = Some (CancelBooking bid prev) → status b = "checked_out" →
     execute self w = (Raise AlreadyCheckedOut, w)).
Proof.
  intros Hb. repeat split; intros Hself Hst; munfold; rewrite Hself; cbn;
    rewrite Hb; cbn.
  - apply String.eqb_neq in Hst. by rewrite Hst.
  - apply String.eqb_neq in Hst. by rewrite Hst.
  - by rewrite Hst.
  - by rewrite Hst.
Qed.

(** ** The conflict check *)

Lemma _dates_overlap_spec (a_start a_end b_start b_end : date) :
  CreateBookingOp._dates_overlap a_start a_end b_start b_end = true
  ↔ ranges_overlap a_start a_end b_start b_end.
Proof. unfold CreateBookingOp._dates_overlap, ranges_overlap. apply andb_true_iff. Qed.

Lemma date_lt_irrefl (a : date) : date_lt a a = false.
Proof. unfold date_lt, date_cmp. by rewrite !Z.compare_refl. Qed.

Lemma scan_spec (rn : Z) (ci co : date) (values : list Booking) :
  CreateBookingOp.scan rn ci co values = true
  ↔ ∀ b, b ∈ values → room_number b = rn → blocks b = true →
         ¬ ranges_overlap ci co (check_in_date b) (check_out_date b).
Proof.
  induction values as [|b0 values IH]; cbn.
  - split; [|done]. intros _ b Hb. by apply elem_of_nil in Hb.
  - destruct (Z.eqb_spec (room_number b0) rn) as [Hrn|Hrn]; cbn.
    + destruct (String.eqb (status b0) "cancelled" || String.eqb (status b0) "checked_out")
        eqn:Hst; cbn.
      * rewrite IH. split; intros H b Hb.
        -- apply elem_of_cons in Hb as [->|Hb]; [|by apply H].
           unfold blocks. by rewrite Hst.
        -- apply H. by apply elem_of_cons; right.
      * destruct (CreateBookingOp._dates_overlap ci co (check_in_date b0)
                    (check_out_date b0)) eqn:Hov.
        -- split; [done|]. intros H. exfalso.
           apply (H b0); [by apply elem_of_cons; left|done| |by apply _dates_overlap_spec].
           unfold blocks. by rewrite Hst.
        -- rewrite IH. split; intros H b Hb.
           ++ apply elem_of_cons in Hb as [->|Hb]; [|by apply H].
              intros _ _ Hr. apply _dates_overlap_spec in Hr. congruence.
           ++ apply H. by apply elem_of_cons; right.
    + rewrite IH. split; intros H b Hb.
      * apply elem_of_cons in Hb as [->|Hb]; [done|by apply H].
      * apply H. by apply elem_of_cons; right.
Qed.

Lemma _room_is_available_spec (rn : Z) (ci co : date) (h : Hotel) :
  CreateBookingOp._room_is_available rn ci co h = true
  ↔ ∀ k b, bookings h !! k = Some b → room_number b = rn → blocks b = true →
           ¬ ranges_overlap ci co (check_in_date b) (check_out_date b).
Proof.
  unfold CreateBookingOp._room_is_available. rewrite scan_spec. split.
  - intros H k b Hk. apply H. apply list_elem_of_fmap. exists (k, b).
    split; [done|]. by apply elem_of_map_to_list.
  - intros H b Hb. apply list_elem_of_fmap in Hb as [[k b'] [-> Hkb]].
    apply elem_of_map_to_list in Hkb. by apply (H k).
Qed.

(** Claim C3.  The room is reported available iff no booking of that room
    whose status is neither 'cancelled' nor 'checked_out' overlaps the
    proposed range; two ranges overlap iff each starts before the other
    ends; ranges that share only a boundary date do not overlap (the two
    examples of the specification included); and a cancelled booking has no
    influence on the answer. *)
Theorem conflict_check_semantics (rn : Z) (ci co : date) (h : Hotel) :
  (CreateBookingOp._room_is_available rn ci co h = true
   ↔ ∀ k b, bookings h !! k = Some b → room_number b = rn →
            status b ≠ "cancelled" → status b ≠ "checked_out" →
            ¬ (date_lt ci (check_out_date b) = true
               ∧ date_lt (check_in_date b) co = true))
  ∧ (∀ a_start a_end b_start b_end,
       CreateBookingOp._dates_overlap a_start a_end b_start b_end = true
       ↔ date_lt a_start b_end = true ∧ date_lt b_start a_end = true)
  ∧ (∀ a_start boundary b_end,
       CreateBookingOp._dates_overlap a_start boundary boundary b_end = false
       ∧ CreateBookingOp._dates_overlap boundary b_end a_start boundary = false)
  ∧ CreateBookingOp._dates_overlap (Date 2026 1 25) (Date 2026 1 28)
                                   (Date 2026 1 28) (Date 2026 1 30) = false
  ∧ CreateBookingOp._dates_overlap (Date 2026 1 27) (Date 2026 1 29)
                                   (Date 2026 1 25) (Date 2026 1 28) = true
  ∧ (∀ k b, bookings h !! k = Some b → status b = "cancelled" →
       CreateBookingOp._room_is_available rn ci co h
       = CreateBookingOp._room_is_available rn ci co (set_bookings (delete k) h)).
Proof.
  split; [|split; [|split; [|split; [|split]]]].
  - rewrite _room_is_available_spec. unfold ranges_overlap, blocks.
    split; intros H k b Hk Hrn.
    + intros Hc Hco. apply (H k b Hk Hrn).
      apply String.eqb_neq in Hc, Hco. by rewrite Hc, Hco.
    + intros Hbl. apply (H k b Hk Hrn).
      * intros Hc. rewrite Hc in Hbl. done.
      * intros Hc. rewrite Hc in Hbl. done.
  - intros. apply _dates_overlap_spec.
  - intros. unfold CreateBookingOp._dates_overlap.
    rewrite date_lt_irrefl. split; [apply andb_false_r|done].
  - reflexivity.
  - reflexivity.
  - intros k b Hk Hst.
    apply eq_true_iff_eq. rewrite !_room_is_available_spec. cbn.
    split; intros H k' b' Hk'.
    + apply lookup_delete_Some in Hk' as [_ Hk']. by apply (H k').
    + destruct (decide (k = k')) as [<-|Hne].
      * rewrite Hk in Hk'. injection Hk' as <-. intros _ Hbl.
        unfold blocks in Hbl. rewrite Hst in Hbl. done.
      * apply (H k'). by rewrite lookup_delete_ne.
Qed.

(** ** CreateBooking *)

(** Claim C7.  [CreateBooking.execute] checks, in this order: the guest id
    (unknown-guest error), the room number (unknown-room error),
    [check_in < check_out] (date-range error), availability
    (room-unavailable error), each error leaving the state unchanged; when
    all four pass it takes the next booking id, increments the counter,
    inserts the booking with status 'booked' and records the id on the
    operation object. *)
Theorem CreateBooking_execute_order_and_effect
    (w : World) (self : loc) (g r : Z) (ci co : date) (b : option Z) :
  heap w !! self = Some (CreateBooking g r ci co b) →
  (guests (hotel w) !! g = None → execute self w = (Raise UnknownGuest, w))
  ∧ (is_Some (guests (hotel w) !! g) → rooms (hotel w) !! r = None →
       execute self w = (Raise UnknownRoom, w))
  ∧ (is_Some (guests (hotel w) !! g) → is_Some (rooms (hotel w) !! r) →
       date_lt ci co = false →
       execute self w = (Raise InvalidDateRange, w))
  ∧ (is_Some (guests (hotel w) !! g) → is_Some (rooms (hotel w) !! r) →
       date_lt ci co = true →
       CreateBookingOp._room_is_available r ci co (hotel w) = false →
       execute self w = (Raise RoomUnavailable, w))
  ∧ (is_Some (guests (hotel w) !! g) → is_Some (rooms (hotel w) !! r) →
       date_lt ci co = true →
       CreateBookingOp._room_is_available r ci co (hotel w) = true →
       let n := _next_booking_id (hotel w) in
       execute self w =
         (Return tt,
          mkWorld
            (mkHotel (rooms (hotel w)) (guests (hotel w))
                     (<[n := mkBooking n g r ci co "booked"]> (bookings (hotel w)))
                     (_next_guest_id (hotel w)) (n + 1) (history (hotel w)))
            (<[self := CreateBooking g r ci co (Some n)]> (heap w)))).
Proof.
  intros Hself.
  assert (Hge : ∀ x, date_lt ci co = x → date_ge ci co = negb x).
  { intros x <-. unfold date_ge, date_lt. by destruct (date_cmp ci co). }
  repeat split.
  - intros Hg. munfold. rewrite Hself. cbn. apply dict_in_false in Hg. by rewrite Hg.
  - intros Hg Hr. munfold. rewrite Hself. cbn.
    apply dict_in_true in Hg. apply dict_in_false in Hr. by rewrite Hg, Hr.
  - intros Hg Hr Hd. munfold. rewrite Hself. cbn.
    apply dict_in_true in Hg, Hr. apply Hge in Hd. by rewrite Hg, Hr, Hd.
  - intros Hg Hr Hd Hav. munfold. rewrite Hself. cbn.
    apply dict_in_true in Hg, Hr. apply Hge in Hd. by rewrite Hg, Hr, Hd, Hav.
  - intros Hg Hr Hd Hav. munfold. rewrite Hself. cbn.
    apply dict_in_true in Hg, Hr. apply Hge in Hd. by rewrite Hg, Hr, Hd, Hav.
Qed.

(** ** undo_last *)

(** Claim C8.  [undo_last] on an empty history (a fresh hotel in
    particular) raises the empty-history error and changes nothing;
    otherwise it removes the last operation from the history and calls that
    operation's [undo], after which the history is the old one without its
    last element. *)
Theorem undo_last_behaviour (w : World) :
  (history (hotel w) = [] → undo_last w = (Raise EmptyHistory, w))
  ∧ undo_last init = (Raise EmptyHistory, init)
  ∧ (∀ hs operation,
       history (hotel w) = hs ++ [operation] →
       undo_last w
       = undo operation (mkWorld (set_history (λ _, hs) (hotel w)) (heap w))
       ∧ (is_Some (heap w !! operation) →
          history (hotel (snd (undo_last w))) = hs)).
Proof.
  assert (Hpop : ∀ hs operation,
            history (hotel w) = hs ++ [operation] →
            undo_last w
            = undo operation (mkWorld (set_history (λ _, hs) (hotel w)) (heap w))).
  { intros hs operation Hh. unfold undo_last, mbind, M_bind, get_hotel.
    rewrite Hh, last_snoc. cbn. unfold set_history. by rewrite Hh, removelast_last. }
  split; [|split].
  - intros Hh. unfold undo_last, mbind, M_bind, get_hotel. by rewrite Hh.
  - reflexivity.
  - intros hs operation Hh. split; [by apply Hpop|].
    intros [op Hop]. rewrite (Hpop _ _ Hh).
    destruct (undo_returns operation
                (mkWorld (set_history (λ _, hs) (hotel w)) (heap w)) op Hop)
      as (h' & -> & Hhist & _).
    done.
Qed.

(** ** The monadic code computes the pure reading *)

Lemma execute_eq (operation : loc) (w : World) (op : Operation) :
  heap w !! operation = Some op →
  execute operation w
  = match execute_pure op (hotel w) with
    | inl e => (Raise e, w)
    | inr (op', h') => (Return tt, mkWorld h' (<[operation := op']> (heap w)))
    end.
Proof.
  intros Hop. munfold. rewrite Hop. destruct w as [h hp]. destruct op; cbn;
    repeat (match goal with
            | |- context [match ?x with _ => _ end] => destruct x; cbn
            end); reflexivity.
Qed.

Lemma undo_eq (operation : loc) (w : World) (op : Operation) :
  heap w !! operation = Some op →
  undo operation w = (Return tt, mkWorld (undo_hotel op (hotel w)) (heap w)).
Proof.
  intros Hop. munfold. rewrite Hop. destruct w as [[] hp].
  destruct op; cbn; unfold restore_status_pure, set_bookings; cbn;
    repeat (match goal with
            | |- context [match ?x with _ => _ end] => destruct x eqn:?; cbn
            end); try reflexivity.
Qed.

(** ** Exactness of undo right after execute *)

Lemma set_status_status (s : string) (b : Booking) :
  set_status (status b) (set_status s b) = b.
Proof. by destruct b. Qed.

Lemma restore_after_set (b : Z) (s : string) (booking : Booking)
    (bs : gmap Z Booking) :
  bs !! b = Some booking →
  restore_status_pure b (Some (status booking)) (<[b := set_status s booking]> bs) = bs.
Proof.
  intros Hb. unfold restore_status_pure. rewrite lookup_insert_eq.
  by rewrite set_status_status, insert_insert_eq, insert_id.
Qed.

Lemma dict_in_insert {V} (k : Z) (v : V) (d : gmap Z V) :
  dict_in k (<[k := v]> d) = true.
Proof. unfold dict_in. by rewrite lookup_insert_eq. Qed.

Lemma execute_pure_undo (op op' : Operation) (h h' : Hotel) :
  ids_below h →
  execute_pure op h = inr (op', h') →
  rooms (undo_hotel op' h') = rooms h
  ∧ guests (undo_hotel op' h') = guests h
  ∧ bookings (undo_hotel op' h') = bookings h
  ∧ history (undo_hotel op' h') = history h.
Proof.
  intros [Hg Hb] Hex. destruct h as [rs gs bs ng nb hs]. cbn in *.
  destruct op; cbn in Hex.
  - destruct (dict_in number0 rs) eqn:Hin; [done|].
    injection Hex as <- <-. cbn. rewrite dict_in_insert. cbn.
    apply dict_in_false in Hin. by rewrite delete_insert_id.
  - injection Hex as <- <-. cbn. rewrite dict_in_insert. cbn.
    rewrite delete_insert_id; [done|].
    destruct (gs !! ng) eqn:E; [|done]. specialize (Hg ng (mk_is_Some _ _ E)). lia.
  - destruct (negb (dict_in guest_id0 gs)); [done|].
    destruct (negb (dict_in room_number0 rs)); [done|].
    destruct (date_ge check_in_date0 check_out_date0); [done|].
    destruct (negb _); [done|].
    injection Hex as <- <-. cbn. rewrite dict_in_insert. cbn.
    rewrite delete_insert_id; [done|].
    destruct (bs !! nb) eqn:E; [|done]. specialize (Hb nb (mk_is_Some _ _ E)). lia.
  - destruct (bs !! booking_id0) as [bk|] eqn:E; [|done].
    destruct (String.eqb (status bk) "checked_out"); [done|].
    destruct (String.eqb (status bk) "cancelled"); [done|].
    injection Hex as <- <-. cbn. by rewrite restore_after_set.
  - destruct (bs !! booking_id0) as [bk|] eqn:E; [|done].
    destruct (negb _); [done|].
    injection Hex as <- <-. cbn. by rewrite restore_after_set.
  - destruct (bs !! booking_id0) as [bk|] eqn:E; [|done].
    destruct (negb _); [done|].
    injection Hex as <- <-. cbn. by rewrite restore_after_set.
Qed.

(** ** One call, in closed form *)

Lemma do_call_Construct (k : ctor) (w : World) :
  do_call (Construct k) w
  = (Return tt, mkWorld (hotel w) (heap w ++ [__init__ k])).
Proof. reflexivity. Qed.

Lemma do_call_Apply (operation : loc) (w : World) :
  do_call (Apply operation) w
  = match heap w !! operation with
    | None => (Raise InvalidReference, w)
    | Some op =>
        match execute_pure op (hotel w) with
        | inl e => (Raise e, w)
        | inr (op', h') =>
            (Return tt,
             mkWorld (set_history (λ hs, hs ++ [operation]) h')
                     (<[operation := op']> (heap w)))
        end
    end.
Proof.
  cbn. unfold apply, mbind, M_bind.
  destruct (heap w !! operation) as [op|] eqn:Hop.
  - rewrite (execute_eq _ _ _ Hop).
    by destruct (execute_pure op (hotel w)) as [e|[op' h']].
  - unfold execute, mbind, M_bind, deref. by rewrite Hop.
Qed.

Lemma do_call_UndoLast_empty (w : World) :
  history (hotel w) = [] → do_call UndoLast w = (Raise EmptyHistory, w).
Proof. intros Hh. cbn. unfold undo_last, mbind, M_bind, get_hotel. by rewrite Hh. Qed.

Lemma do_call_UndoLast_snoc (w : World) (hs : list loc) (operation : loc)
    (op : Operation) :
  history (hotel w) = hs ++ [operation] →
  heap w !! operation = Some op →
  do_call UndoLast w
  = (Return tt, mkWorld (undo_hotel op (set_history (λ _, hs) (hotel w))) (heap w)).
Proof.
  intros Hh Hop. cbn. unfold undo_last, mbind, M_bind, get_hotel.
  rewrite Hh, last_snoc. unfold modify_hotel.
  rewrite (undo_eq operation
             (mkWorld (set_history (@removelast loc) (hotel w)) (heap w)) op Hop).
  cbn. unfold set_history. by rewrite Hh, removelast_last.
Qed.

(** ** Counters and keys *)

Lemma execute_pure_counters (op op' : Operation) (h h' : Hotel) :
  execute_pure op h = inr (op', h') →
  _next_guest_id h ≤ _next_guest_id h'
  ∧ _next_booking_id h ≤ _next_booking_id h'.
Proof.
  destruct op; cbn;
    repeat (match goal with
            | |- context [match ?x with _ => _ end] => destruct x; cbn
            end); intros Hex; try done; injection Hex as <- <-; cbn; lia.
Qed.

Lemma undo_hotel_counters (op : Operation) (h : Hotel) :
  _next_guest_id (undo_hotel op h) = _next_guest_id h
  ∧ _next_booking_id (undo_hotel op h) = _next_booking_id h
  ∧ history (undo_hotel op h) = history h.
Proof.
  destruct op; cbn;
    repeat (match goal with
            | |- context [match ?x with _ => _ end] => destruct x; cbn
            end); done.
Qed.

Lemma do_call_counters (c : call) (w : World) :
  _next_guest_id (hotel w) ≤ _next_guest_id (hotel (snd (do_call c w)))
  ∧ _next_booking_id (hotel w) ≤ _next_booking_id (hotel (snd (do_call c w))).
Proof.
  destruct c as [k|l|].
  - rewrite do_call_Construct. cbn. lia.
  - rewrite do_call_Apply. destruct (heap w !! l) as [op|]; [|cbn; lia].
    destruct (execute_pure op (hotel w)) as [e|[op' h']] eqn:Hex; [cbn; lia|].
    apply execute_pure_counters in Hex. cbn. lia.
  - destruct (history (hotel w)) as [|l0 hs0] eqn:Hh using rev_ind.
    + rewrite do_call_UndoLast_empty by done. cbn. lia.
    + clear IHhs0. destruct (heap w !! l0) as [op|] eqn:Hop.
      * rewrite (do_call_UndoLast_snoc _ _ _ _ Hh Hop). cbn.
        destruct (undo_hotel_counters op (set_history (λ _, hs0) (hotel w)))
          as (-> & -> & _). cbn. lia.
      * cbn. unfold undo_last, mbind, M_bind, get_hotel.
        rewrite Hh, last_snoc. cbn. unfold undo, mbind, M_bind, deref. cbn.
        rewrite Hop. cbn. lia.
Qed.

Lemma run_counters (cs : list call) (w : World) :
  _next_guest_id (hotel w) ≤ _next_guest_id (hotel (run cs w))
  ∧ _next_booking_id (hotel w) ≤ _next_booking_id (hotel (run cs w)).
Proof.
  revert w. induction cs as [|c cs IH]; intros w; cbn; [lia|].
  pose proof (do_call_counters c w). pose proof (IH (snd (do_call c w))). lia.
Qed.

Lemma restore_status_pure_is_Some (b : Z) (prev : option string)
    (bs : gmap Z Booking) (k : Z) :
  is_Some (restore_status_pure b prev bs !! k) ↔ is_Some (bs !! k).
Proof.
  unfold restore_status_pure.
  destruct (bs !! b) as [bk|] eqn:Hb; [|done]. destruct prev as [s|]; [|done].
  rewrite lookup_insert_is_Some. split.
  - intros [<-|[_ H]]; [by eexists|done].
  - intros H. destruct (decide (b = k)); [by left|by right].
Qed.

Lemma execute_pure_ids (op op' : Operation) (h h' : Hotel) :
  ids_below h → execute_pure op h = inr (op', h') → ids_below h'.
Proof.
  intros [Hg Hb] Hex. destruct h as [rs gs bs ng nb hs]. cbn in *.
  destruct op; cbn in Hex;
    repeat (match type of Hex with
            | context [match ?x with _ => _ end] => destruct x eqn:?; cbn in Hex
            end); try done; injection Hex as <- <-; split; cbn; intros k Hk;
    try (by apply Hg); try (by apply Hb).
  - apply lookup_insert_is_Some in Hk as [<-|[_ Hk]]; [lia|]. apply Hg in Hk. lia.
  - apply lookup_insert_is_Some in Hk as [<-|[_ Hk]]; [lia|]. apply Hb in Hk. lia.
  - apply lookup_insert_is_Some in Hk as [<-|[_ Hk]]; [|by apply Hb].
    apply Hb. by eexists.
  - apply lookup_insert_is_Some in Hk as [<-|[_ Hk]]; [|by apply Hb].
    apply Hb. by eexists.
  - apply lookup_insert_is_Some in Hk as [<-|[_ Hk]]; [|by apply Hb].
    apply Hb. by eexists.
Qed.

Lemma undo_hotel_ids (op : Operation) (h : Hotel) :
  ids_below h → ids_below (undo_hotel op h).
Proof.
  intros [Hg Hb]. destruct h as [rs gs bs ng nb hs]. cbn in *.
  destruct op; cbn;
    repeat (match goal with
            | |- context [match ?x with _ => _ end] => destruct x eqn:?; cbn
            end); split; cbn; intros k Hk;
    try (by apply Hg); try (by apply Hb).
  - apply Hg. apply lookup_delete_is_Some in Hk. tauto.
  - apply Hb. apply lookup_delete_is_Some in Hk. tauto.
  - apply Hb. by apply restore_status_pure_is_Some in Hk.
  - apply Hb. by apply restore_status_pure_is_Some in Hk.
  - apply Hb. by apply restore_status_pure_is_Some in Hk.
Qed.

Lemma do_call_ids (c : call) (w : World) :
  ids_below (hotel w) → ids_below (hotel (snd (do_call c w))).
Proof.
  intros Hids. destruct c as [k|l|].
  - by rewrite do_call_Construct.
  - rewrite do_call_Apply. destruct (heap w !! l) as [op|]; [|done].
    destruct (execute_pure op (hotel w)) as [e|[op' h']] eqn:Hex; [done|].
    apply (execute_pure_ids _ _ _ _ Hids) in Hex. by destruct h'.
  - destruct (history (hotel w)) as [|l0 hs0] eqn:Hh using rev_ind.
    + by rewrite do_call_UndoLast_empty.
    + clear IHhs0. destruct (heap w !! l0) as [op|] eqn:Hop.
      * rewrite (do_call_UndoLast_snoc _ _ _ _ Hh Hop). cbn.
        apply undo_hotel_ids. by destruct (hotel w).
      * cbn. unfold undo_last, mbind, M_bind, get_hotel.
        rewrite Hh, last_snoc. cbn. unfold undo, mbind, M_bind, deref. cbn.
        rewrite Hop. cbn. by destruct (hotel w).
Qed.

Lemma run_ids (cs : list call) (w : World) :
  ids_below (hotel w) → ids_below (hotel (run cs w)).
Proof.
  revert w. induction cs as [|c cs IH]; intros w Hids; cbn; [done|].
  by apply IH, do_call_ids.
Qed.

Lemma init_ids : ids_below (hotel init).
Proof. split; intros k [x Hk]; cbn in Hk; by rewrite lookup_empty in Hk. Qed.

(** ** Undo right after apply *)

Lemma apply_new_eq (c : ctor) (w : World) :
  apply_new c w
  = do_call (Apply (length (heap w))) (mkWorld (hotel w) (heap w ++ [__init__ c])).
Proof. reflexivity. Qed.

Lemma set_history_const_snoc (h : Hotel) (l : loc) :
  set_history (λ _, history h) (set_history (λ hs, hs ++ [l]) h) = h.
Proof. by destruct h. Qed.

(** The statement of C1 for any world whose keys are below the counters. *)
Lemma apply_new_undo_last_ids (w w1 : World) (c : ctor) :
  ids_below (hotel w) →
  apply_new c w = (Return tt, w1) →
  ∃ w2, undo_last w1 = (Return tt, w2)
    ∧ rooms (hotel w2) = rooms (hotel w)
    ∧ guests (hotel w2) = guests (hotel w)
    ∧ bookings (hotel w2) = bookings (hotel w)
    ∧ history (hotel w2) = history (hotel w)
    ∧ (∀ l op, heap w !! l = Some op → heap w2 !! l = Some op).
Proof.
  intros Hids. rewrite apply_new_eq, do_call_Apply. cbn [heap hotel].
  rewrite list_lookup_middle by done.
  destruct (execute_pure (__init__ c) (hotel w)) as [e|[op' h']] eqn:Hex; [done|].
  intros [= <-].
  pose proof (execute_pure_undo _ _ _ _ Hids Hex) as (Hr & Hg & Hb & Hh).
  eexists. split.
  - change undo_last with (do_call UndoLast).
    apply (do_call_UndoLast_snoc _ (history h') (length (heap w)) op').
    + by destruct h'.
    + cbn. apply list_lookup_insert_eq. rewrite length_app. cbn. lia.
  - cbn [hotel heap]. rewrite set_history_const_snoc.
    repeat split; try done.
    intros l op Hl. pose proof (lookup_lt_Some _ _ _ Hl) as Hlt.
    rewrite list_lookup_insert_ne by lia. by rewrite lookup_app_l.
Qed.

(** Claim C1.  In every state reached from a fresh hotel by any sequence of
    calls, if applying a freshly constructed operation returns, then the
    following [undo_last] returns too and leaves rooms, guests, bookings and
    the history exactly as they were before the apply, and every operation
    object that existed then unchanged. *)
Theorem apply_then_undo_last_restores (cs : list call) (c : ctor) (w1 : World) :
  apply_new c (run cs init) = (Return tt, w1) →
  ∃ w2, undo_last w1 = (Return tt, w2)
    ∧ rooms (hotel w2) = rooms (hotel (run cs init))
    ∧ guests (hotel w2) = guests (hotel (run cs init))
    ∧ bookings (hotel w2) = bookings (hotel (run cs init))
    ∧ history (hotel w2) = history (hotel (run cs init))
    ∧ (∀ l op, heap (run cs init) !! l = Some op → heap w2 !! l = Some op).
Proof. apply apply_new_undo_last_ids, run_ids, init_ids. Qed.

(** ** One RegisterGuest object applied twice *)

Lemma apply_RegisterGuest (w : World) (self : loc) (nm : string) (gid : option Z) :
  heap w !! self = Some (RegisterGuest nm gid) →
  apply self w
  = (Return tt,
     mkWorld
       (mkHotel (rooms (hotel w))
                (<[_next_guest_id (hotel w)
                   := mkGuest (_next_guest_id (hotel w)) nm]> (guests (hotel w)))
                (bookings (hotel w))
                (_next_guest_id (hotel w) + 1) (_next_booking_id (hotel w))
                (history (hotel w) ++ [self]))
       (<[self := RegisterGuest nm (Some (_next_guest_id (hotel w)))]> (heap w))).
Proof.
  intros Hself. change (apply self) with (do_call (Apply self)).
  by rewrite do_call_Apply, Hself.
Qed.

Lemma undo_last_RegisterGuest (w : World) (hs : list loc) (self : loc)
    (nm : string) (g : Z) :
  history (hotel w) = hs ++ [self] →
  heap w !! self = Some (RegisterGuest nm (Some g)) →
  undo_last w
  = (Return tt,
     mkWorld
       (mkHotel (rooms (hotel w)) (delete g (guests (hotel w))) (bookings (hotel w))
                (_next_guest_id (hotel w)) (_next_booking_id (hotel w)) hs)
       (heap w)).
Proof.
  intros Hh Hself. change undo_last with (do_call UndoLast).
  rewrite (do_call_UndoLast_snoc _ _ _ _ Hh Hself). cbn.
  destruct (dict_in g (guests (hotel w))) eqn:Hin; [done|].
  apply dict_in_false in Hin. by rewrite (delete_id _ _ Hin).
Qed.

(** Claim C9.  One [RegisterGuest] object applied twice in a row: both
    applies return and insert two guests with consecutive ids, the object
    keeps only the second id, and it is in the history twice; of the two
    [undo_last] calls that follow, the first removes the second guest and
    the second changes no guest, so the first guest stays registered
    although the history is back to what it was. *)
Theorem RegisterGuest_instance_applied_twice
    (w : World) (self : loc) (nm : string) (gid : option Z) :
  heap w !! self = Some (RegisterGuest nm gid) →
  ∃ w1 w2 w3 w4 : World,
    apply self w = (Return tt, w1)
    ∧ apply self w1 = (Return tt, w2)
    ∧ guests (hotel w2)
      = <[_next_guest_id (hotel w) + 1
          := mkGuest (_next_guest_id (hotel w) + 1) nm]>
          (<[_next_guest_id (hotel w)
             := mkGuest (_next_guest_id (hotel w)) nm]> (guests (hotel w)))
    ∧ heap w2 !! self = Some (RegisterGuest nm (Some (_next_guest_id (hotel w) + 1)))
    ∧ history (hotel w2) = history (hotel w) ++ [self; self]
    ∧ undo_last w2 = (Return tt, w3)
    ∧ guests (hotel w3) = delete (_next_guest_id (hotel w) + 1) (guests (hotel w2))
    ∧ undo_last w3 = (Return tt, w4)
    ∧ guests (hotel w4) = guests (hotel w3)
    ∧ guests (hotel w4) !! _next_guest_id (hotel w)
      = Some (mkGuest (_next_guest_id (hotel w)) nm)
    ∧ guests (hotel w4) !! (_next_guest_id (hotel w) + 1) = None
    ∧ history (hotel w4) = history (hotel w).
Proof.
  intros Hself. pose proof (lookup_lt_Some _ _ _ Hself) as Hlt.
  destruct w as [[rs gs bs n nb hs] hp]. cbn in *.
  do 4 eexists.
  split; [apply (apply_RegisterGuest (mkWorld (mkHotel rs gs bs n nb hs) hp)
                   self nm gid Hself)|].
  split; [apply (apply_RegisterGuest _ self nm (Some n)); cbn;
          by apply list_lookup_insert_eq|].
  cbn. split; [done|].
  split; [apply list_lookup_insert_eq; by rewrite length_insert|].
  split; [by rewrite <- app_assoc|].
  split.
  { apply (undo_last_RegisterGuest _ (hs ++ [self]) self nm (n + 1)); cbn.
    - by rewrite <- app_assoc.
    - apply list_lookup_insert_eq. by rewrite length_insert. }
  cbn. split; [done|].
  split.
  { apply (undo_last_RegisterGuest _ hs self nm (n + 1)); cbn; [done|].
    apply list_lookup_insert_eq. by rewrite length_insert. }
  cbn. rewrite delete_delete_eq.
  split; [done|].
  split; [|split; [apply lookup_delete_eq|done]].
  rewrite lookup_delete_ne by lia.
  rewrite lookup_insert_ne by lia. apply lookup_insert_eq.
Qed.

(** ** Identifiers *)

(** Claim C6.  Neither counter ever decreases, across one call or any
    sequence of calls ([apply], [undo_last], successful or not); the id a
    [RegisterGuest] or [CreateBooking] assigns is the counter's value, and
    the counter stays above it for ever after, so no later assignment
    repeats it; on a fresh hotel, register A, undo, register B gives B the
    id 2 and leaves id 1 unused. *)
Theorem identifiers_monotone_never_reused :
  (∀ (c : call) (w : World),
     _next_guest_id (hotel w) ≤ _next_guest_id (hotel (snd (do_call c w)))
     ∧ _next_booking_id (hotel w) ≤ _next_booking_id (hotel (snd (do_call c w))))
  ∧ (∀ (cs : list call) (w : World),
       _next_guest_id (hotel w) ≤ _next_guest_id (hotel (run cs w))
       ∧ _next_booking_id (hotel w) ≤ _next_booking_id (hotel (run cs w)))
  ∧ (∀ (w : World) (l : loc) (nm : string) (g0 : option Z) (cs : list call),
       heap w !! l = Some (RegisterGuest nm g0) →
       heap (snd (apply l w)) !! l
       = Some (RegisterGuest nm (Some (_next_guest_id (hotel w))))
       ∧ _next_guest_id (hotel w)
         < _next_guest_id (hotel (run cs (snd (apply l w)))))
  ∧ (∀ (w w1 : World) (l : loc) (g r : Z) (ci co : date) (b0 : option Z)
       (cs : list call),
       heap w !! l = Some (CreateBooking g r ci co b0) →
       apply l w = (Return tt, w1) →
       heap w1 !! l
       = Some (CreateBooking g r ci co (Some (_next_booking_id (hotel w))))
       ∧ _next_booking_id (hotel w) < _next_booking_id (hotel (run cs w1)))
  ∧ heap (run register_undo_register init)
    = [RegisterGuest "A" (Some 1); RegisterGuest "B" (Some 2)]
  ∧ guests (hotel (run register_undo_register init)) !! 1 = None
  ∧ guests (hotel (run register_undo_register init)) !! 2 = Some (mkGuest 2 "B").
Proof.
  split; [apply do_call_counters|].
  split; [apply run_counters|].
  split; [|split; [|by vm_compute]].
  - intros w l nm g0 cs Hl. pose proof (lookup_lt_Some _ _ _ Hl) as Hlt.
    rewrite (apply_RegisterGuest _ _ _ _ Hl). cbn [snd heap].
    split; [by apply list_lookup_insert_eq|].
    match goal with |- context [run cs ?w1] => pose proof (run_counters cs w1) as [H _] end.
    cbn in H. lia.
  - intros w w1 l g r ci co b0 cs Hl. pose proof (lookup_lt_Some _ _ _ Hl) as Hlt.
    change (apply l) with (do_call (Apply l)). rewrite do_call_Apply, Hl.
    destruct (execute_pure _ _) as [e|[op' h']] eqn:Hex; [done|].
    intros [= <-]. cbn [heap].
    cbn in Hex.
    repeat (match type of Hex with
            | context [match ?x with _ => _ end] => destruct x eqn:?; cbn in Hex
            end); try done.
    injection Hex as <- <-.
    split; [by apply list_lookup_insert_eq|].
    match goal with |- context [run cs ?w1] => pose proof (run_counters cs w1) as [_ H] end.
    cbn in H. lia.
Qed.

(** ** The no-overlap invariant *)






Lemma execute_pure_history (op op' : Operation) (h h' : Hotel) :
  execute_pure op h = inr (op', h') → history h' = history h.
Proof.
  destruct op; cbn;
    repeat (match goal with
            | |- context [match ?x with _ => _ end] => destruct x; cbn
            end); intros Hex; try done; by injection Hex as <- <-.
Qed.










(** ** The theorems at concrete inputs *)

Lemma apply_then_undo_last_restores_witness :
  apply_new (NewCheckOut 1) (run checked_in_trace init)
  = (Return tt, snd (apply_new (NewCheckOut 1) (run checked_in_trace init)))
  ∧ ∃ w2,
      undo_last (snd (apply_new (NewCheckOut 1) (run checked_in_trace init)))
      = (Return tt, w2)
      ∧ rooms (hotel w2) = rooms (hotel (run checked_in_trace init))
      ∧ guests (hotel w2) = guests (hotel (run checked_in_trace init))
      ∧ bookings (hotel w2) = bookings (hotel (run checked_in_trace init))
      ∧ history (hotel w2) = history (hotel (run checked_in_trace init))
      ∧ (∀ l op, heap (run checked_in_trace init) !! l = Some op →
                 heap w2 !! l = Some op).
Proof.
  split; [by vm_compute|].
  apply (apply_then_undo_last_restores checked_in_trace (NewCheckOut 1)).
  by vm_compute.
Defined.

(** Undoing a CheckOut gives the booking its status 'checked_in' back. *)
Example undo_CheckOut_restores_checked_in :
  bookings (hotel (snd (apply_new (NewCheckOut 1) (run checked_in_trace init)))) !! 1
  = Some (mkBooking 1 1 101 (Date 2026 1 25) (Date 2026 1 28) "checked_out")
  ∧ bookings (hotel (snd (undo_last
      (snd (apply_new (NewCheckOut 1) (run checked_in_trace init)))))) !! 1
    = Some (mkBooking 1 1 101 (Date 2026 1 25) (Date 2026 1 28) "checked_in").
Proof. by vm_compute. Qed.

Lemma failed_execute_is_atomic_witness :
  execute 4%nat checked_in_world = (Raise InvalidTransition_CheckIn, checked_in_world)
  ∧ checked_in_world = checked_in_world
  ∧ apply 4%nat checked_in_world = (Raise InvalidTransition_CheckIn, checked_in_world).
Proof.
  split; [by vm_compute|].
  apply (failed_execute_is_atomic 4%nat checked_in_world checked_in_world
           InvalidTransition_CheckIn).
  by vm_compute.
Defined.


Lemma status_machine_enforced_witness :
  bookings (hotel booked_world) !! 1
  = Some (mkBooking 1 1 101 (Date 2026 1 25) (Date 2026 1 28) "booked")
  ∧ execute 3%nat booked_world = (Raise InvalidTransition_CheckOut, booked_world).
Proof.
  split; [by vm_compute|].
  destruct (status_machine_enforced booked_world 3%nat 1 None
              (mkBooking 1 1 101 (Date 2026 1 25) (Date 2026 1 28) "booked"))
    as (_ & H & _); [by vm_compute|].
  apply H; by vm_compute.
Defined.

Lemma CreateBooking_execute_order_and_effect_witness :
  heap conflict_world !! 3%nat
  = Some (CreateBooking 1 101 (Date 2026 1 27) (Date 2026 1 29) None)
  ∧ execute 3%nat conflict_world = (Raise RoomUnavailable, conflict_world).
Proof.
  split; [by vm_compute|].
  destruct (CreateBooking_execute_order_and_effect conflict_world 3%nat 1 101
              (Date 2026 1 27) (Date 2026 1 29) None)
    as (_ & _ & _ & H & _); [by vm_compute|].
  apply H; vm_compute; by eauto.
Defined.

Lemma RegisterGuest_instance_applied_twice_witness :
  heap one_guest_object_world !! 0%nat = Some (RegisterGuest "A" None)
  ∧ ∃ w4 : World,
      w4 = run [Apply 0%nat; Apply 0%nat; UndoLast; UndoLast] one_guest_object_world
      ∧ guests (hotel w4) !! 1 = Some (mkGuest 1 "A")
      ∧ guests (hotel w4) !! 2 = None
      ∧ history (hotel w4) = [].
Proof.
  split; [by vm_compute|].
  destruct (RegisterGuest_instance_applied_twice one_guest_object_world 0%nat "A" None)
    as (w1 & w2 & w3 & w4 & H1 & H2 & _ & _ & _ & H3 & _ & H4 & _ & Hfirst & Hsecond & Hh);
    [by vm_compute|].
  exists w4. split; [|by split].
  cbn [run]. change (do_call (Apply 0%nat)) with (apply 0%nat).
  change (do_call UndoLast) with undo_last.
  rewrite H1. cbn [snd]. rewrite H2. cbn [snd]. rewrite H3. cbn [snd].
  by rewrite H4.
Defined.

Lemma AddRoom_execute_checks_only_duplicates_witness :
  heap odd_room_world !! 0%nat = Some (AddRoom 7 0 (-5) false)
  ∧ rooms (hotel (snd (execute 0%nat odd_room_world))) !! 7 = Some (mkRoom 7 0 (-5)).
Proof.
  split; [by vm_compute|].
  destruct (AddRoom_execute_checks_only_duplicates odd_room_world 0%nat 7 0 (-5) false)
    as (H & _); [by vm_compute|].
  apply H. by vm_compute.
Defined.

(** * Further properties of the code *)

(** ** RegisterGuest, the status operations, undo *)

(** Property X1.  [RegisterGuest.execute] has no validation: whatever the name and the
    state it returns, inserts the guest under the counter's value, records
    that id on the object and increments the counter; every other guest,
    the rooms, the bookings and the history are left alone. *)
Theorem RegisterGuest_execute_always_returns
    (w : World) (self : loc) (nm : string) (gid : option Z) :
  heap w !! self = Some (RegisterGuest nm gid) →
  ∃ w', execute self w = (Return tt, w')
    ∧ guests (hotel w') !! _next_guest_id (hotel w)
      = Some (mkGuest (_next_guest_id (hotel w)) nm)
    ∧ (∀ k, k ≠ _next_guest_id (hotel w) →
            guests (hotel w') !! k = guests (hotel w) !! k)
    ∧ _next_guest_id (hotel w') = _next_guest_id (hotel w) + 1
    ∧ heap w' = <[self := RegisterGuest nm (Some (_next_guest_id (hotel w)))]> (heap w)
    ∧ rooms (hotel w') = rooms (hotel w)
    ∧ bookings (hotel w') = bookings (hotel w)
    ∧ _next_booking_id (hotel w') = _next_booking_id (hotel w)
    ∧ history (hotel w') = history (hotel w).
Proof.
  intros Hself. eexists. split.
  - rewrite (execute_eq _ _ _ Hself). cbn. reflexivity.
  - cbn. split; [apply lookup_insert_eq|].
    split; [intros k Hk; by apply lookup_insert_ne|]. done.
Qed.

Lemma RegisterGuest_execute_always_returns_witness :
  heap one_guest_object_world !! 0%nat = Some (RegisterGuest "A" None)
  ∧ ∃ w', execute 0%nat one_guest_object_world = (Return tt, w')
      ∧ guests (hotel w') !! 1 = Some (mkGuest 1 "A").
Proof.
  split; [by vm_compute|].
  destruct (RegisterGuest_execute_always_returns one_guest_object_world 0%nat "A" None)
    as (w' & Hex & Hg & _); [by vm_compute|].
  exists w'. by split.
Defined.

(** Property X2.  The forward transitions.  On a booking that is present,
    [CheckIn.execute] returns when the status is 'booked' and sets
    'checked_in'; [CheckOut.execute] returns when it is 'checked_in' and
    sets 'checked_out'; [CancelBooking.execute] returns on every status
    other than 'checked_out' and 'cancelled' (so on 'checked_in' too) and
    sets 'cancelled'.  Each records the status it found on the object, and
    touches nothing but that one booking's status. *)
Theorem status_transitions_when_allowed
    (w : World) (self : loc) (bid : Z) (prev : option string) (b : Booking) :
  bookings (hotel w) !! bid = Some b →
  (heap w !! self = Some (CheckIn bid prev) → status b = "booked" →
     execute self w
     = (Return tt,
        mkWorld (set_bookings <[bid := set_status "checked_in" b]> (hotel w))
                (<[self := CheckIn bid (Some "booked")]> (heap w))))
  ∧ (heap w !! self = Some (CheckOut bid prev) → status b = "checked_in" →
     execute self w
     = (Return tt,
        mkWorld (set_bookings <[bid := set_status "checked_out" b]> (hotel w))
                (<[self := CheckOut bid (Some "checked_in")]> (heap w))))
  ∧ (heap w !! self = Some (CancelBooking bid prev) →
     status b ≠ "checked_out" → status b ≠ "cancelled" →
     execute self w
     = (Return tt,
        mkWorld (set_bookings <[bid := set_status "cancelled" b]> (hotel w))
                (<[self := CancelBooking bid (Some (status b))]> (heap w)))).
Proof.
  intros Hb. split; [|split].
  - intros Hself Hst. rewrite (execute_eq _ _ _ Hself). cbn. by rewrite Hb, Hst.
  - intros Hself Hst. rewrite (execute_eq _ _ _ Hself). cbn. by rewrite Hb, Hst.
  - intros Hself Hco Hc. rewrite (execute_eq _ _ _ Hself). cbn. rewrite Hb.
    apply String.eqb_neq in Hco, Hc. by rewrite Hco, Hc.
Qed.

Lemma status_transitions_when_allowed_witness :
  bookings (hotel (run (booked_trace ++ [Construct (NewCheckIn 1)]) init)) !! 1
  = Some (mkBooking 1 1 101 (Date 2026 1 25) (Date 2026 1 28) "booked")
  ∧ ∃ w', execute 3%nat (run (booked_trace ++ [Construct (NewCheckIn 1)]) init)
          = (Return tt, w')
      ∧ bookings (hotel w') !! 1
        = Some (mkBooking 1 1 101 (Date 2026 1 25) (Date 2026 1 28) "checked_in")
      ∧ heap w' !! 3%nat = Some (CheckIn 1 (Some "booked")).
Proof.
  split; [by vm_compute|].
  destruct (status_transitions_when_allowed
              (run (booked_trace ++ [Construct (NewCheckIn 1)]) init) 3%nat 1 None
              (mkBooking 1 1 101 (Date 2026 1 25) (Date 2026 1 28) "booked"))
    as (H & _); [by vm_compute|].
  eexists. split; [apply H; by vm_compute|]. by vm_compute.
Defined.

(** Property X3.  A booking id that is not a key of [bookings] makes [CancelBooking],
    [CheckIn] and [CheckOut] raise the booking-not-found error, whatever
    the object remembered before, and the state is unchanged. *)
Theorem status_operations_on_unknown_booking
    (w : World) (self : loc) (bid : Z) (prev : option string) :
  bookings (hotel w) !! bid = None →
  heap w !! self = Some (CancelBooking bid prev)
  ∨ heap w !! self = Some (CheckIn bid prev)
  ∨ heap w !! self = Some (CheckOut bid prev) →
  execute self w = (Raise UnknownBooking, w)
  ∧ apply self w = (Raise UnknownBooking, w).
Proof.
  intros Hb Hself.
  assert (Hex : execute self w = (Raise UnknownBooking, w)).
  { destruct Hself as [Hself|[Hself|Hself]];
      rewrite (execute_eq _ _ _ Hself); cbn; by rewrite Hb. }
  split; [done|]. unfold apply, mbind, M_bind. by rewrite Hex.
Qed.

Lemma status_operations_on_unknown_booking_witness :
  bookings (hotel (run [Construct (NewCheckIn 5)] init)) !! 5 = None
  ∧ execute 0%nat (run [Construct (NewCheckIn 5)] init)
    = (Raise UnknownBooking, run [Construct (NewCheckIn 5)] init)
  ∧ apply 0%nat (run [Construct (NewCheckIn 5)] init)
    = (Raise UnknownBooking, run [Construct (NewCheckIn 5)] init).
Proof.
  split; [by vm_compute|].
  apply (status_operations_on_unknown_booking _ 0%nat 5 None); [by vm_compute|].
  right. left. by vm_compute.
Defined.

(** Property X4.  [undo] called on an operation that never executed (its attributes are
    still those of the constructor) changes nothing: the guards on
    [_added], [guest_id], [booking_id] and [_prev_status] all fail. *)
Theorem undo_before_execute_is_noop (w : World) (operation : loc) (c : ctor) :
  heap w !! operation = Some (__init__ c) →
  undo operation w = (Return tt, w).
Proof.
  intros Hop. rewrite (undo_eq _ _ _ Hop).
  destruct w as [[rs gs bs ng nb hs] hp]. destruct c; cbn; try done.
  all: unfold set_bookings, restore_status_pure; cbn; by destruct (bs !! _).
Qed.

Lemma undo_before_execute_is_noop_witness :
  heap odd_room_world !! 0%nat = Some (__init__ (NewAddRoom 7 0 (-5)))
  ∧ undo 0%nat odd_room_world = (Return tt, odd_room_world).
Proof.
  split; [by vm_compute|].
  apply (undo_before_execute_is_noop odd_room_world 0%nat (NewAddRoom 7 0 (-5))).
  by vm_compute.
Defined.

Lemma undo_hotel_creates_nothing (op : Operation) (h : Hotel) :
  (∀ k r, rooms (undo_hotel op h) !! k = Some r → rooms h !! k = Some r)
  ∧ (∀ k g, guests (undo_hotel op h) !! k = Some g → guests h !! k = Some g)
  ∧ (∀ k b', bookings (undo_hotel op h) !! k = Some b' →
       ∃ b, bookings h !! k = Some b ∧ b' = set_status (status b') b).
Proof.
  assert (Hid : ∀ (b : Booking), b = set_status (status b) b) by (by intros []).
  assert (Hrestore : ∀ bid prev k b',
            restore_status_pure bid prev (bookings h) !! k = Some b' →
            ∃ b, bookings h !! k = Some b ∧ b' = set_status (status b') b).
  { intros bid prev k b'. unfold restore_status_pure.
    destruct (bookings h !! bid) as [bk|] eqn:Hbk;
      [destruct prev as [s|]|]; try (intros H; exists b'; by split).
    intros H. apply lookup_insert_Some in H as [[<- <-]|[_ H]].
    - exists bk. by split.
    - exists b'. by split. }
  destruct h as [rs gs bs ng nb hs]. cbn in Hrestore.
  destruct op as [n c p a|nm [g|]|g r ci co [b|]|bid prev|bid prev|bid prev]; cbn;
    try (destruct (_ && _)); try (destruct (dict_in _ _)); cbn;
    repeat split; try done;
    try (intros k x H; apply lookup_delete_Some in H as [_ H]; done);
    try (intros k x H; exists x; by split);
    try (by apply Hrestore).
  intros k x H. apply lookup_delete_Some in H as [_ H]. exists x. by split.
Qed.

(** Property X5.  [undo] of any operation object, in any state, returns; it leaves the
    counters, the history and every operation object as they are, and it
    creates nothing: a room or guest present afterwards was there before,
    unchanged, and a booking present afterwards was there before with at
    most another status. *)
Theorem undo_never_raises_nor_creates (w : World) (operation : loc) (op : Operation) :
  heap w !! operation = Some op →
  ∃ w', undo operation w = (Return tt, w')
    ∧ heap w' = heap w
    ∧ history (hotel w') = history (hotel w)
    ∧ _next_guest_id (hotel w') = _next_guest_id (hotel w)
    ∧ _next_booking_id (hotel w') = _next_booking_id (hotel w)
    ∧ (∀ k r, rooms (hotel w') !! k = Some r → rooms (hotel w) !! k = Some r)
    ∧ (∀ k g, guests (hotel w') !! k = Some g → guests (hotel w) !! k = Some g)
    ∧ (∀ k b', bookings (hotel w') !! k = Some b' →
         ∃ b, bookings (hotel w) !! k = Some b ∧ b' = set_status (status b') b).
Proof.
  intros Hop. eexists. split; [apply (undo_eq _ _ _ Hop)|].
  cbn [heap hotel]. split; [done|].
  destruct (undo_hotel_counters op (hotel w)) as (-> & -> & ->).
  do 3 (split; [done|]). apply undo_hotel_creates_nothing.
Qed.

Lemma undo_never_raises_nor_creates_witness :
  heap (run driver_trace init) !! 5%nat = Some (CheckOut 1 (Some "checked_in"))
  ∧ ∃ w', undo 5%nat (run driver_trace init) = (Return tt, w')
      ∧ heap w' = heap (run driver_trace init).
Proof.
  split; [by vm_compute|].
  destruct (undo_never_raises_nor_creates (run driver_trace init) 5%nat
              (CheckOut 1 (Some "checked_in")))
    as (w' & Hu & Hh & _); [by vm_compute|].
  exists w'. by split.
Defined.

(** ** What every reachable state satisfies *)

(** The state one call leaves behind, by cases. *)
Lemma do_call_cases (c : call) (w : World) :
  (∃ k, c = Construct k
        ∧ snd (do_call c w) = mkWorld (hotel w) (heap w ++ [__init__ k]))
  ∨ snd (do_call c w) = w
  ∨ (∃ l op op' h', c = Apply l ∧ heap w !! l = Some op
        ∧ execute_pure op (hotel w) = inr (op', h')
        ∧ snd (do_call c w)
          = mkWorld (set_history (λ hs, hs ++ [l]) h') (<[l := op']> (heap w)))
  ∨ (∃ hs l op, c = UndoLast ∧ history (hotel w) = hs ++ [l]
        ∧ heap w !! l = Some op
        ∧ snd (do_call c w)
          = mkWorld (undo_hotel op (set_history (λ _, hs) (hotel w))) (heap w))
  ∨ (∃ hs l, c = UndoLast ∧ history (hotel w) = hs ++ [l]
        ∧ heap w !! l = None
        ∧ snd (do_call c w) = mkWorld (set_history (λ _, hs) (hotel w)) (heap w)).
Proof.
  destruct c as [k|l|].
  - left. by exists k.
  - rewrite do_call_Apply. destruct (heap w !! l) as [op|] eqn:Hop; [|by right; left].
    destruct (execute_pure op (hotel w)) as [e|[op' h']] eqn:Hex; [by right; left|].
    right. right. left. by exists l, op, op', h'.
  - destruct (history (hotel w)) as [|l0 hs0] eqn:Hh using rev_ind.
    + right. left. by rewrite do_call_UndoLast_empty.
    + clear IHhs0. destruct (heap w !! l0) as [op|] eqn:Hop.
      * right. right. right. left. exists hs0, l0, op.
        by rewrite (do_call_UndoLast_snoc _ _ _ _ Hh Hop).
      * right. right. right. right. exists hs0, l0. repeat split; try done.
        cbn. unfold undo_last, mbind, M_bind, get_hotel.
        rewrite Hh, last_snoc. cbn. unfold undo, mbind, M_bind, deref. cbn.
        rewrite Hop. cbn. unfold set_history. by rewrite Hh, removelast_last.
Qed.

Lemma run_invariant (P : World → Prop) :
  (∀ c w, P w → P (snd (do_call c w))) →
  ∀ cs w, P w → P (run cs w).
Proof.
  intros Hstep cs. induction cs as [|c cs IH]; intros w Hw; cbn; [done|].
  by apply IH, Hstep.
Qed.

Lemma well_formed_init : well_formed init.
Proof.
  unfold well_formed. cbn.
  split; [lia|]. split; [lia|].
  split; [intros k x Hk; by rewrite lookup_empty in Hk|].
  split; [intros k x Hk; by rewrite lookup_empty in Hk|].
  split; [intros k x Hk; by rewrite lookup_empty in Hk|].
  split.
  - intros l op s Hl. by rewrite lookup_nil in Hl.
  - intros l Hl. by apply elem_of_nil in Hl.
Qed.

Lemma well_formed_execute (w : World) (l : loc) (op op' : Operation) (h' : Hotel) :
  well_formed w →
  heap w !! l = Some op →
  execute_pure op (hotel w) = inr (op', h') →
  well_formed (mkWorld (set_history (λ hs, hs ++ [l]) h') (<[l := op']> (heap w))).
Proof.
  intros (Hng & Hnb & Hr & Hg & Hb & Hm & Hh) Hl Hex.
  pose proof (lookup_lt_Some _ _ _ Hl) as Hlt.
  assert (Hheap : ∀ s, remembered_status op' = Some s → valid_status s →
            ∀ l0 o s0, <[l := op']> (heap w) !! l0 = Some o →
                       remembered_status o = Some s0 → valid_status s0).
  { intros s Hs Hv l0 o s0 Ho Hrem. destruct (decide (l = l0)) as [<-|Hne].
    - rewrite list_lookup_insert_eq in Ho by done. injection Ho as <-. congruence.
    - rewrite list_lookup_insert_ne in Ho by done. by apply (Hm l0 o). }
  assert (Hheap0 : remembered_status op' = None →
            ∀ l0 o s0, <[l := op']> (heap w) !! l0 = Some o →
                       remembered_status o = Some s0 → valid_status s0).
  { intros Hn l0 o s0 Ho Hrem. destruct (decide (l = l0)) as [<-|Hne].
    - rewrite list_lookup_insert_eq in Ho by done. injection Ho as <-. congruence.
    - rewrite list_lookup_insert_ne in Ho by done. by apply (Hm l0 o). }
  assert (Hhist : ∀ l0, l0 ∈ history (hotel w) ++ [l] →
            is_Some (<[l := op']> (heap w) !! l0)).
  { intros l0 Hl0. apply lookup_lt_is_Some. rewrite length_insert.
    apply elem_of_app in Hl0 as [Hl0|Hl0].
    - by apply lookup_lt_is_Some, Hh.
    - apply list_elem_of_singleton in Hl0. by subst. }
  destruct (hotel w) as [rs gs bs ng nb hs] eqn:Hw. cbn in *.
  destruct op; cbn in Hex.
  - destruct (dict_in number0 rs); [done|]. injection Hex as <- <-.
    unfold well_formed; cbn. do 2 (split; [done|]).
    split; [|split; [done|split; [done|split; [by apply Hheap0|done]]]].
    intros k r H. apply lookup_insert_Some in H as [[<- <-]|[_ H]]; [done|by apply Hr].
  - injection Hex as <- <-.
    unfold well_formed; cbn. split; [lia|]. split; [done|]. split; [done|].
    split; [|split; [done|split; [by apply Hheap0|done]]].
    intros k g H. apply lookup_insert_Some in H as [[<- <-]|[_ H]]; cbn; [lia|].
    apply Hg in H. lia.
  - destruct (negb (dict_in guest_id0 gs)); [done|].
    destruct (negb (dict_in room_number0 rs)); [done|].
    destruct (date_ge check_in_date0 check_out_date0) eqn:Hd; [done|].
    destruct (negb _); [done|]. injection Hex as <- <-.
    unfold well_formed; cbn. split; [done|]. split; [lia|]. split; [done|].
    split; [done|]. split; [|split; [by apply Hheap0|done]].
    intros k b H. apply lookup_insert_Some in H as [[<- <-]|[_ H]]; cbn.
    + repeat split; try lia; [by left|].
      unfold date_ge in Hd. unfold date_lt.
      by destruct (date_cmp check_in_date0 check_out_date0).
    + apply Hb in H. destruct H as (? & ? & ? & ?). repeat split; try done; lia.
  - destruct (bs !! booking_id0) as [bk|] eqn:Hbk; [|done].
    destruct (String.eqb (status bk) "checked_out"); [done|].
    destruct (String.eqb (status bk) "cancelled"); [done|]. injection Hex as <- <-.
    pose proof (Hb _ _ Hbk) as (Hid & Hrange & Hst & Hdt).
    unfold well_formed; cbn. do 4 (split; [done|]).
    split; [|split; [by apply (Hheap (status bk))|done]].
    intros k b H. apply lookup_insert_Some in H as [[<- <-]|[_ H]]; cbn; [|by apply Hb].
    repeat split; try done; try lia. by right; right; right.
  - destruct (bs !! booking_id0) as [bk|] eqn:Hbk; [|done].
    destruct (negb _); [done|]. injection Hex as <- <-.
    pose proof (Hb _ _ Hbk) as (Hid & Hrange & Hst & Hdt).
    unfold well_formed; cbn. do 4 (split; [done|]).
    split; [|split; [by apply (Hheap (status bk))|done]].
    intros k b H. apply lookup_insert_Some in H as [[<- <-]|[_ H]]; cbn; [|by apply Hb].
    repeat split; try done; try lia. by right; left.
  - destruct (bs !! booking_id0) as [bk|] eqn:Hbk; [|done].
    destruct (negb _); [done|]. injection Hex as <- <-.
    pose proof (Hb _ _ Hbk) as (Hid & Hrange & Hst & Hdt).
    unfold well_formed; cbn. do 4 (split; [done|]).
    split; [|split; [by apply (Hheap (status bk))|done]].
    intros k b H. apply lookup_insert_Some in H as [[<- <-]|[_ H]]; cbn; [|by apply Hb].
    repeat split; try done; try lia. by right; right; left.
Qed.

Lemma well_formed_undo (w : World) (hs : list loc) (l : loc) (op : Operation) :
  well_formed w →
  history (hotel w) = hs ++ [l] →
  heap w !! l = Some op →
  well_formed (mkWorld (undo_hotel op (set_history (λ _, hs) (hotel w))) (heap w)).
Proof.
  intros (Hng & Hnb & Hr & Hg & Hb & Hm & Hh) Hhist Hl.
  assert (Hh' : ∀ l0, l0 ∈ hs → is_Some (heap w !! l0)).
  { intros l0 Hl0. apply Hh. rewrite Hhist. apply elem_of_app. by left. }
  assert (Hrestore : ∀ bid prev,
            remembered_status op = prev →
            ∀ k b, restore_status_pure bid prev (bookings (hotel w)) !! k = Some b →
              booking_id b = k ∧ 1 ≤ k < _next_booking_id (hotel w)
              ∧ valid_status (status b)
              ∧ date_lt (check_in_date b) (check_out_date b) = true).
  { intros bid prev Hrem k b. unfold restore_status_pure.
    destruct (bookings (hotel w) !! bid) as [bk|] eqn:Hbk; [|by apply Hb].
    destruct prev as [s|]; [|by apply Hb].
    intros H. apply lookup_insert_Some in H as [[<- <-]|[_ H]]; [|by apply Hb].
    destruct (Hb _ _ Hbk) as (? & ? & ? & ?). cbn.
    repeat split; try done; try lia. by apply (Hm l op). }
  destruct (hotel w) as [rs gs bs ng nb hs0]. cbn in *.
  destruct op as [n c p a|nm [g|]|g r ci co [b|]|bid prev|bid prev|bid prev]; cbn;
    try (destruct (_ && _)); try (destruct (dict_in _ _));
    unfold well_formed; cbn; do 2 (split; [done|]).
  all: try (by (split; [done|split; [done|split; [done|split; [done|done]]]])).
  - split; [|done]. intros k x H. apply lookup_delete_Some in H as [_ H]. by apply Hr.
  - split; [done|]. split; [|done].
    intros k x H. apply lookup_delete_Some in H as [_ H]. by apply Hg.
  - split; [done|]. split; [done|]. split; [|done].
    intros k x H. apply lookup_delete_Some in H as [_ H]. by apply Hb.
  - split; [done|]. split; [done|]. split; [|done]. by apply Hrestore.
  - split; [done|]. split; [done|]. split; [|done]. by apply Hrestore.
  - split; [done|]. split; [done|]. split; [|done]. by apply Hrestore.
Qed.

Lemma well_formed_do_call (c : call) (w : World) :
  well_formed w → well_formed (snd (do_call c w)).
Proof.
  intros Hw.
  destruct (do_call_cases c w)
    as [(k & _ & ->)|[->|[(l & op & op' & h' & _ & Hl & Hex & ->)
       |[(hs & l & op & _ & Hh & Hl & ->)|(hs & l & _ & Hh & Hl & _)]]]].
  - destruct Hw as (Hng & Hnb & Hr & Hg & Hb & Hm & Hh).
    unfold well_formed; cbn [hotel heap]. do 5 (split; [done|]). split.
    + intros l op s Hl. apply lookup_snoc_Some in Hl as [[_ Hl]|[_ <-]].
      * by apply (Hm l op).
      * by destruct k.
    + intros l Hl. apply lookup_lt_is_Some. rewrite length_app.
      apply Hh, lookup_lt_is_Some in Hl. lia.
  - done.
  - by apply (well_formed_execute w l op).
  - by apply (well_formed_undo w hs l op).
  - destruct Hw as (_ & _ & _ & _ & _ & _ & Href).
    assert (is_Some (heap w !! l)) as [o Ho]; [|congruence].
    apply Href. rewrite Hh. apply elem_of_app. right. by apply list_elem_of_singleton.
Qed.

Lemma well_formed_run (cs : list call) : well_formed (run cs init).
Proof. apply run_invariant; [apply well_formed_do_call|apply well_formed_init]. Qed.

(** Property X6.  In every state reached from a fresh hotel by any sequence of calls
    (operation objects reused or not), each record sits under its own
    identifier: a room under its number, a guest under its guest id, a
    booking under its booking id; guest and booking ids lie between 1 and
    the respective counter (excluded), so the id the counter hands out next
    is not in use. *)
Theorem reachable_keys_identify_records (cs : list call) :
  (∀ k r, rooms (hotel (run cs init)) !! k = Some r → number r = k)
  ∧ (∀ k g, guests (hotel (run cs init)) !! k = Some g →
       guest_id g = k ∧ 1 ≤ k < _next_guest_id (hotel (run cs init)))
  ∧ (∀ k b, bookings (hotel (run cs init)) !! k = Some b →
       booking_id b = k ∧ 1 ≤ k < _next_booking_id (hotel (run cs init)))
  ∧ guests (hotel (run cs init)) !! _next_guest_id (hotel (run cs init)) = None
  ∧ bookings (hotel (run cs init)) !! _next_booking_id (hotel (run cs init)) = None.
Proof.
  destruct (well_formed_run cs) as (_ & _ & Hr & Hg & Hb & _ & _).
  split; [done|]. split; [done|]. split; [intros k b H; by apply Hb in H as (? & ? & _)|].
  split.
  - destruct (guests _ !! _next_guest_id _) eqn:E; [|done]. apply Hg in E. lia.
  - destruct (bookings _ !! _next_booking_id _) eqn:E; [|done]. apply Hb in E. lia.
Qed.

(** Property X7.  In every state reached from a fresh hotel by any sequence of calls,
    every booking has one of the statuses 'booked', 'checked_in',
    'checked_out', 'cancelled' and its check-in date is before its
    check-out date; and every status an operation object remembers for its
    undo is one of the four. *)
Theorem reachable_bookings_are_valid (cs : list call) :
  (∀ k b, bookings (hotel (run cs init)) !! k = Some b →
     valid_status (status b)
     ∧ date_lt (check_in_date b) (check_out_date b) = true)
  ∧ (∀ l op s, heap (run cs init) !! l = Some op →
       remembered_status op = Some s → valid_status s).
Proof.
  destruct (well_formed_run cs) as (_ & _ & _ & _ & Hb & Hm & _).
  split; [|done]. intros k b H. by apply Hb in H as (_ & _ & ? & ?).
Qed.

(** Property X8.  In every state reached from a fresh hotel by any sequence of calls,
    [undo_last] raises exactly when the history is empty (and then it is
    the empty-history error): with a non-empty history it returns, the
    history loses its last element and nothing else, and the counters and
    the operation objects are untouched. *)
Theorem reachable_undo_last_returns (cs : list call) :
  (history (hotel (run cs init)) = [] →
     undo_last (run cs init) = (Raise EmptyHistory, run cs init))
  ∧ (∀ hs l, history (hotel (run cs init)) = hs ++ [l] →
       ∃ w', undo_last (run cs init) = (Return tt, w')
         ∧ history (hotel w') = hs
         ∧ heap w' = heap (run cs init)
         ∧ _next_guest_id (hotel w') = _next_guest_id (hotel (run cs init))
         ∧ _next_booking_id (hotel w') = _next_booking_id (hotel (run cs init))).
Proof.
  split; [apply do_call_UndoLast_empty|].
  intros hs l Hh.
  destruct (well_formed_run cs) as (_ & _ & _ & _ & _ & _ & Href).
  destruct (Href l) as [op Hop].
  { rewrite Hh. apply elem_of_app. right. by apply list_elem_of_singleton. }
  eexists. split; [apply (do_call_UndoLast_snoc _ _ _ _ Hh Hop)|].
  cbn [hotel heap].
  destruct (undo_hotel_counters op (set_history (λ _, hs) (hotel (run cs init))))
    as (-> & -> & ->).
  by destruct (hotel (run cs init)).
Qed.

(** ** Bookings that block, identifiers that stay *)

(** Property X9.  Once a [CreateBooking] has returned, a [CreateBooking] for the same room
    whose range overlaps the one just booked raises the room-unavailable
    error (given a registered guest and a valid range of its own) and
    changes nothing.  The second operation may be the same object: applied
    twice in a row, a [CreateBooking] fails the second time. *)
Theorem CreateBooking_blocks_overlapping_requests
    (w w1 : World) (self other : loc) (g r : Z) (ci co : date) (b0 : option Z)
    (g' : Z) (ci' co' : date) (b0' : option Z) :
  heap w !! self = Some (CreateBooking g r ci co b0) →
  execute self w = (Return tt, w1) →
  heap w1 !! other = Some (CreateBooking g' r ci' co' b0') →
  is_Some (guests (hotel w1) !! g') →
  date_lt ci' co' = true →
  date_lt ci' co = true →
  date_lt ci co' = true →
  execute other w1 = (Raise RoomUnavailable, w1)
  ∧ apply other w1 = (Raise RoomUnavailable, w1).
Proof.
  intros Hself Hex Hother Hg' Hd' Ho1 Ho2.
  rewrite (execute_eq _ _ _ Hself) in Hex. cbn in Hex.
  destruct (negb (dict_in g (guests (hotel w)))); [done|].
  destruct (dict_in r (rooms (hotel w))) eqn:Hr; [|done]. cbn in Hex.
  destruct (date_ge ci co); [done|].
  destruct (negb _); [done|]. injection Hex as <-.
  assert (Hex' : execute other
                   (mkWorld
                      (set_bookings
                         <[_next_booking_id (hotel w)
                           := mkBooking (_next_booking_id (hotel w)) g r ci co "booked"]>
                         (set_next_booking_id (_next_booking_id (hotel w) + 1) (hotel w)))
                      (<[self := CreateBooking g r ci co (Some (_next_booking_id (hotel w)))]>
                         (heap w)))
                 = (Raise RoomUnavailable,
                    mkWorld
                      (set_bookings
                         <[_next_booking_id (hotel w)
                           := mkBooking (_next_booking_id (hotel w)) g r ci co "booked"]>
                         (set_next_booking_id (_next_booking_id (hotel w) + 1) (hotel w)))
                      (<[self := CreateBooking g r ci co (Some (_next_booking_id (hotel w)))]>
                         (heap w)))).
  { rewrite (execute_eq _ _ _ Hother). cbn in *.
    apply dict_in_true in Hg'. rewrite Hg', Hr. cbn.
    assert (date_ge ci' co' = false) as ->.
    { unfold date_ge. unfold date_lt in Hd'. by destruct (date_cmp ci' co'). }
    destruct (CreateBookingOp._room_is_available r ci' co' _) eqn:Hav; [|done].
    exfalso. rewrite _room_is_available_spec in Hav.
    apply (Hav (_next_booking_id (hotel w))
               (mkBooking (_next_booking_id (hotel w)) g r ci co "booked")); try done.
    cbn. apply lookup_insert_eq. }
  split; [done|]. unfold apply, mbind, M_bind. by rewrite Hex'.
Qed.

Lemma CreateBooking_blocks_overlapping_requests_witness :
  execute 2%nat (run (removelast booked_trace) init)
  = (Return tt, snd (execute 2%nat (run (removelast booked_trace) init)))
  ∧ execute 2%nat (snd (execute 2%nat (run (removelast booked_trace) init)))
    = (Raise RoomUnavailable, snd (execute 2%nat (run (removelast booked_trace) init)))
  ∧ apply 2%nat (snd (execute 2%nat (run (removelast booked_trace) init)))
    = (Raise RoomUnavailable, snd (execute 2%nat (run (removelast booked_trace) init))).
Proof.
  split; [by vm_compute|].
  apply (CreateBooking_blocks_overlapping_requests
           (run (removelast booked_trace) init)
           (snd (execute 2%nat (run (removelast booked_trace) init)))
           2%nat 2%nat 1 101 (Date 2026 1 25) (Date 2026 1 28) None
           1 (Date 2026 1 25) (Date 2026 1 28) (Some 1)); try (by vm_compute).
  vm_compute. by eexists.
Defined.

Lemma run_app (cs cs' : list call) (w : World) :
  run (cs ++ cs') w = run cs' (run cs w).
Proof. revert w. induction cs as [|c cs IH]; intros w; cbn; [done|apply IH]. Qed.

(** Records with an identifier below the counters of [w0] are never
    created later: they can only disappear or, for bookings, change
    status. *)
Lemma old_records_only_fade (w0 : World) (c : call) (w : World) :
  (_next_guest_id (hotel w0) ≤ _next_guest_id (hotel w)
   ∧ _next_booking_id (hotel w0) ≤ _next_booking_id (hotel w)
   ∧ (∀ k g, k < _next_guest_id (hotel w0) →
        guests (hotel w) !! k = Some g → guests (hotel w0) !! k = Some g)
   ∧ (∀ k b, k < _next_booking_id (hotel w0) →
        bookings (hotel w) !! k = Some b →
        ∃ b0, bookings (hotel w0) !! k = Some b0 ∧ b = set_status (status b) b0)) →
  (_next_guest_id (hotel w0) ≤ _next_guest_id (hotel (snd (do_call c w)))
   ∧ _next_booking_id (hotel w0) ≤ _next_booking_id (hotel (snd (do_call c w)))
   ∧ (∀ k g, k < _next_guest_id (hotel w0) →
        guests (hotel (snd (do_call c w))) !! k = Some g →
        guests (hotel w0) !! k = Some g)
   ∧ (∀ k b, k < _next_booking_id (hotel w0) →
        bookings (hotel (snd (do_call c w))) !! k = Some b →
        ∃ b0, bookings (hotel w0) !! k = Some b0 ∧ b = set_status (status b) b0)).
Proof.
  intros (Hng & Hnb & Hg & Hb).
  pose proof (do_call_counters c w) as [Hcg Hcb].
  split; [lia|]. split; [lia|].
  assert (Hset : ∀ s k bk b, k < _next_booking_id (hotel w0) →
            bookings (hotel w) !! k = Some bk → b = set_status s bk →
            ∃ b0, bookings (hotel w0) !! k = Some b0 ∧ b = set_status (status b) b0).
  { intros s k bk b Hk Hbk ->. destruct (Hb _ _ Hk Hbk) as (b0 & Hb0 & Heq).
    exists b0. split; [done|]. rewrite Heq. by destruct b0. }
  destruct (do_call_cases c w)
    as [(k & _ & ->)|[->|[(l & op & op' & h' & _ & Hl & Hex & ->)
       |[(hs & l & op & _ & Hh & Hl & ->)|(hs & l & _ & Hh & Hl & ->)]]]];
    cbn [hotel heap]; try done.
  - destruct (hotel w) as [rs gs bs ng nb hs]. cbn in *.
    destruct op as [n cap p a|nm g0|g r ci co b0|bid prev|bid prev|bid prev];
      cbn in Hex.
    + destruct (dict_in n rs); [done|]. by injection Hex as <- <-.
    + injection Hex as <- <-. cbn. split; [|done].
      intros k x Hk H. apply lookup_insert_Some in H as [[<- <-]|[_ H]]; [lia|by apply Hg].
    + destruct (negb (dict_in g gs)); [done|].
      destruct (negb (dict_in r rs)); [done|].
      destruct (date_ge ci co); [done|].
      destruct (negb _); [done|]. injection Hex as <- <-. cbn. split; [done|].
      intros k x Hk H. apply lookup_insert_Some in H as [[<- <-]|[_ H]]; [lia|by apply Hb].
    + destruct (bs !! bid) as [bk|] eqn:Hbk; [|done].
      destruct (String.eqb (status bk) "checked_out"); [done|].
      destruct (String.eqb (status bk) "cancelled"); [done|].
      injection Hex as <- <-. cbn. split; [done|].
      intros k x Hk H. apply lookup_insert_Some in H as [[<- <-]|[_ H]]; [|by apply Hb].
      by apply (Hset "cancelled" _ bk).
    + destruct (bs !! bid) as [bk|] eqn:Hbk; [|done].
      destruct (negb _); [done|].
      injection Hex as <- <-. cbn. split; [done|].
      intros k x Hk H. apply lookup_insert_Some in H as [[<- <-]|[_ H]]; [|by apply Hb].
      by apply (Hset "checked_in" _ bk).
    + destruct (bs !! bid) as [bk|] eqn:Hbk; [|done].
      destruct (negb _); [done|].
      injection Hex as <- <-. cbn. split; [done|].
      intros k x Hk H. apply lookup_insert_Some in H as [[<- <-]|[_ H]]; [|by apply Hb].
      by apply (Hset "checked_out" _ bk).
  - destruct (undo_hotel_creates_nothing op
                (set_history (λ _, hs) (hotel w))) as (_ & Hug & Hub).
    split.
    + intros k g Hk H. apply Hug in H. apply (Hg k g Hk). by destruct (hotel w).
    + intros k b Hk H. apply Hub in H as (bk & Hbk & Heq).
      apply (Hset (status b) k bk); [done| |done]. by destruct (hotel w).
Qed.

(** Property X10.  An identifier never comes to denote another record.  Take any
    reachable state and any continuation of the calls that led to it: a
    guest id in use in both states denotes the same guest; a booking id in
    use in both denotes a booking with the same guest, room and dates (only
    its status may differ); and an id below a counter that is free in the
    first state (its record was undone) is free in the second. *)
Theorem identifiers_denote_one_record (cs cs' : list call) :
  (∀ k g g', guests (hotel (run cs init)) !! k = Some g →
     guests (hotel (run (cs ++ cs') init)) !! k = Some g' → g' = g)
  ∧ (∀ k b b', bookings (hotel (run cs init)) !! k = Some b →
       bookings (hotel (run (cs ++ cs') init)) !! k = Some b' →
       b' = set_status (status b') b)
  ∧ (∀ k, k < _next_guest_id (hotel (run cs init)) →
       guests (hotel (run cs init)) !! k = None →
       guests (hotel (run (cs ++ cs') init)) !! k = None)
  ∧ (∀ k, k < _next_booking_id (hotel (run cs init)) →
       bookings (hotel (run cs init)) !! k = None →
       bookings (hotel (run (cs ++ cs') init)) !! k = None).
Proof.
  rewrite run_app.
  destruct (well_formed_run cs) as (_ & _ & _ & Hwg & Hwb & _ & _).
  assert (Hfade :
    _next_guest_id (hotel (run cs init))
      ≤ _next_guest_id (hotel (run cs' (run cs init)))
    ∧ _next_booking_id (hotel (run cs init))
      ≤ _next_booking_id (hotel (run cs' (run cs init)))
    ∧ (∀ k g, k < _next_guest_id (hotel (run cs init)) →
         guests (hotel (run cs' (run cs init))) !! k = Some g →
         guests (hotel (run cs init)) !! k = Some g)
    ∧ (∀ k b, k < _next_booking_id (hotel (run cs init)) →
         bookings (hotel (run cs' (run cs init))) !! k = Some b →
         ∃ b0, bookings (hotel (run cs init)) !! k = Some b0
               ∧ b = set_status (status b) b0)).
  { apply (run_invariant (λ w,
      _next_guest_id (hotel (run cs init)) ≤ _next_guest_id (hotel w)
      ∧ _next_booking_id (hotel (run cs init)) ≤ _next_booking_id (hotel w)
      ∧ (∀ k g, k < _next_guest_id (hotel (run cs init)) →
           guests (hotel w) !! k = Some g →
           guests (hotel (run cs init)) !! k = Some g)
      ∧ (∀ k b, k < _next_booking_id (hotel (run cs init)) →
           bookings (hotel w) !! k = Some b →
           ∃ b0, bookings (hotel (run cs init)) !! k = Some b0
                 ∧ b = set_status (status b) b0))).
    - intros c w. apply old_records_only_fade.
    - split; [lia|]. split; [lia|]. split; [done|].
      intros k b _ Hk. exists b. split; [done|]. by destruct b. }
  destruct Hfade as (_ & _ & Hg & Hb).
  split; [|split; [|split]].
  - intros k g g' Hk Hk'. pose proof (Hwg _ _ Hk) as [_ Hlt].
    apply Hg in Hk'; [congruence|lia].
  - intros k b b' Hk Hk'. pose proof (Hwb _ _ Hk) as (_ & Hlt & _).
    apply Hb in Hk' as (b0 & Hb0 & Heq); [congruence|lia].
  - intros k Hlt Hk.
    destruct (guests (hotel (run cs' (run cs init))) !! k) eqn:E; [|done].
    apply Hg in E; [congruence|done].
  - intros k Hlt Hk.
    destruct (bookings (hotel (run cs' (run cs init))) !! k) eqn:E; [|done].
    apply Hb in E as (b0 & Hb0 & _); [congruence|done].
Qed.

(** ** Undoing a whole series *)

Lemma undo_times_snoc (n : nat) (w : World) :
  undo_times (S n) w = (undo_times n;; undo_last) w.
Proof.
  revert w. induction n as [|n IH]; intros w.
  - cbn. unfold mbind, M_bind, mret, M_ret. by destruct (undo_last w) as [[[]|e] w'].
  - change (undo_times (S (S n)) w) with ((undo_last;; undo_times (S n)) w).
    unfold mbind, M_bind at 1. destruct (undo_last w) as [[[]|e] w'] eqn:Hu.
    + rewrite IH. cbn. unfold mbind, M_bind. by rewrite Hu.
    + cbn. unfold mbind, M_bind. by rewrite Hu.
Qed.

Lemma undo_hotel_same_records (op : Operation) (h1 h2 : Hotel) :
  same_records h1 h2 → same_records (undo_hotel op h1) (undo_hotel op h2).
Proof.
  destruct h1 as [rs1 gs1 bs1 ng1 nb1 hs1], h2 as [rs2 gs2 bs2 ng2 nb2 hs2].
  intros (Hr & Hg & Hb & Hh). cbn in *. subst.
  destruct op as [n cap p a|nm [g|]|g r ci co [b|]|bid prev|bid prev|bid prev]; cbn;
    try (destruct (_ && _)); try (destruct (dict_in _ _)); done.
Qed.

Lemma undo_last_returns_inv (w w' : World) :
  undo_last w = (Return tt, w') →
  ∃ hs l op, history (hotel w) = hs ++ [l] ∧ heap w !! l = Some op
    ∧ w' = mkWorld (undo_hotel op (set_history (λ _, hs) (hotel w))) (heap w).
Proof.
  intros Hu. change undo_last with (do_call UndoLast) in Hu.
  destruct (history (hotel w)) as [|l hs] eqn:Hh using rev_ind.
  - by rewrite do_call_UndoLast_empty in Hu.
  - clear IHhs. destruct (heap w !! l) as [op|] eqn:Hop.
    + rewrite (do_call_UndoLast_snoc _ _ _ _ Hh Hop) in Hu. injection Hu as <-.
      by exists hs, l, op.
    + cbn in Hu. unfold undo_last, mbind, M_bind, get_hotel in Hu.
      rewrite Hh, last_snoc in Hu. cbn in Hu.
      unfold undo, mbind, M_bind, deref in Hu. cbn in Hu. by rewrite Hop in Hu.
Qed.

(** [undo_last] reads the records, the history and the object the history
    ends with, and nothing else. *)
Lemma undo_last_same_records (wa wb wa' : World) :
  same_records (hotel wa) (hotel wb) →
  (∀ l op, heap wa !! l = Some op → heap wb !! l = Some op) →
  undo_last wa = (Return tt, wa') →
  ∃ wb', undo_last wb = (Return tt, wb')
    ∧ same_records (hotel wa') (hotel wb') ∧ heap wb' = heap wb.
Proof.
  intros Hsame Hheap Hu.
  apply undo_last_returns_inv in Hu as (hs & l & op & Hh & Hop & ->).
  eexists. split.
  - change undo_last with (do_call UndoLast).
    apply (do_call_UndoLast_snoc _ hs l op); [|by apply Hheap].
    destruct Hsame as (_ & _ & _ & <-). done.
  - split; [|done]. cbn [hotel]. apply undo_hotel_same_records.
    destruct Hsame as (? & ? & ? & ?).
    destruct (hotel wa), (hotel wb). by repeat split.
Qed.

Lemma apply_new_keeps_objects (c : ctor) (w w1 : World) :
  apply_new c w = (Return tt, w1) →
  ids_below (hotel w) →
  ids_below (hotel w1)
  ∧ (∀ l op, heap w !! l = Some op → heap w1 !! l = Some op).
Proof.
  rewrite apply_new_eq. intros Hap Hids.
  pose proof (do_call_ids (Apply (length (heap w)))
                (mkWorld (hotel w) (heap w ++ [__init__ c])) Hids) as Hids'.
  rewrite Hap in Hids'. split; [done|].
  rewrite do_call_Apply in Hap. cbn [heap hotel] in Hap.
  rewrite list_lookup_middle in Hap by done.
  destruct (execute_pure _ _) as [e|[op' h']]; [done|]. injection Hap as <-.
  intros l op Hl. pose proof (lookup_lt_Some _ _ _ Hl). cbn.
  rewrite list_lookup_insert_ne by lia. by rewrite lookup_app_l.
Qed.

Lemma apply_all_undo_times_ids (cs : list ctor) (w w1 : World) :
  ids_below (hotel w) →
  apply_all cs w = (Return tt, w1) →
  ∃ w2, undo_times (length cs) w1 = (Return tt, w2)
    ∧ same_records (hotel w2) (hotel w)
    ∧ (∀ l op, heap w !! l = Some op → heap w2 !! l = Some op).
Proof.
  revert w w1. induction cs as [|c cs IH]; intros w w1 Hids Hall.
  - cbn in Hall. injection Hall as <-. exists w. by repeat split.
  - cbn [apply_all] in Hall. unfold mbind, M_bind in Hall.
    destruct (apply_new c w) as [[[]|e] wa] eqn:Hap; [|done].
    destruct (apply_new_keeps_objects _ _ _ Hap Hids) as [Hidsa Hobj].
    destruct (IH _ _ Hidsa Hall) as (wb & Hub & Hsame & Hheap).
    destruct (apply_new_undo_last_ids _ _ _ Hids Hap)
      as (w2' & Hu & Hr & Hg & Hb & Hh & _).
    assert (Hsame' : same_records (hotel wa) (hotel wb)).
    { destruct Hsame as (? & ? & ? & ?). by repeat split. }
    destruct (undo_last_same_records wa wb w2' Hsame' Hheap Hu)
      as (wb' & Hub' & (Hr' & Hg' & Hb' & Hh') & Hheq).
    exists wb'. split.
    + cbn [length]. rewrite undo_times_snoc. unfold mbind, M_bind at 1. by rewrite Hub.
    + split.
      * repeat split; congruence.
      * intros l op Hl. rewrite Hheq. by apply Hheap, Hobj.
Qed.

(** Property X11.  Undo of a whole series.  In any reachable state, if a series of
    freshly constructed operations is applied and every apply returns, then
    as many [undo_last] calls as there were operations all return and leave
    rooms, guests, bookings and the history exactly as they were before the
    first apply, and every operation object that existed then unchanged. *)
Theorem apply_all_then_undo_all (calls : list call) (cs : list ctor) (w1 : World) :
  apply_all cs (run calls init) = (Return tt, w1) →
  ∃ w2, undo_times (length cs) w1 = (Return tt, w2)
    ∧ rooms (hotel w2) = rooms (hotel (run calls init))
    ∧ guests (hotel w2) = guests (hotel (run calls init))
    ∧ bookings (hotel w2) = bookings (hotel (run calls init))
    ∧ history (hotel w2) = history (hotel (run calls init))
    ∧ (∀ l op, heap (run calls init) !! l = Some op → heap w2 !! l = Some op).
Proof.
  intros Hall.
  destruct (apply_all_undo_times_ids cs (run calls init) w1) as (w2 & Hu & Hs & Hh);
    [apply run_ids, init_ids|done|].
  exists w2. destruct Hs as (? & ? & ? & ?). by repeat split.
Qed.

Lemma apply_all_then_undo_all_witness :
  apply_all [NewAddRoom 101 2 3500; NewRegisterGuest "G";
             NewCreateBooking 1 101 (Date 2026 1 25) (Date 2026 1 28);
             NewCheckIn 1; NewCheckOut 1] (run [] init)
  = (Return tt, snd (apply_new (NewCheckOut 1) (run checked_in_trace init)))
  ∧ ∃ w2, undo_times 5 (snd (apply_new (NewCheckOut 1) (run checked_in_trace init)))
          = (Return tt, w2)
      ∧ rooms (hotel w2) = ∅ ∧ guests (hotel w2) = ∅ ∧ bookings (hotel w2) = ∅
      ∧ history (hotel w2) = [].
Proof.
  split; [by vm_compute|].
  destruct (apply_all_then_undo_all []
              [NewAddRoom 101 2 3500; NewRegisterGuest "G";
               NewCreateBooking 1 101 (Date 2026 1 25) (Date 2026 1 28);
               NewCheckIn 1; NewCheckOut 1]
              (snd (apply_new (NewCheckOut 1) (run checked_in_trace init))))
    as (w2 & Hu & Hr & Hg & Hb & Hh & _); [by vm_compute|].
  exists w2. by repeat split.
Defined.

(** ** Properties kept when no operation is applied from inside the history *)

Section Replay.
Variable P : Hotel → Prop.
Hypothesis P_records :
  ∀ h1 h2, rooms h1 = rooms h2 → guests h1 = guests h2 →
           bookings h1 = bookings h2 → P h1 → P h2.
Hypothesis P_execute :
  ∀ op op' h h', ids_below h → P h → execute_pure op h = inr (op', h') → P h'.







End Replay.




(** With an operation object applied twice the integrity is lost: three
    more [undo_last] after [reuse_trace] empty the history, the rooms and
    the guests, and booking 2 is still there. *)
Example booking_left_dangling_by_instance_reuse :
  all_return (reuse_trace ++ [UndoLast; UndoLast; UndoLast]) init = true
  ∧ history (hotel (run (reuse_trace ++ [UndoLast; UndoLast; UndoLast]) init)) = []
  ∧ rooms (hotel (run (reuse_trace ++ [UndoLast; UndoLast; UndoLast]) init)) = ∅
  ∧ guests (hotel (run (reuse_trace ++ [UndoLast; UndoLast; UndoLast]) init)) = ∅
  ∧ bookings (hotel (run (reuse_trace ++ [UndoLast; UndoLast; UndoLast]) init)) !! 2
    = Some (mkBooking 2 1 101 (Date 2026 1 25) (Date 2026 1 28) "booked").
Proof. by vm_compute. Qed.

(** ** What apply does and does not do *)

(** Property X13.  Applying an operation again right after its apply returned is refused
    for four of the six classes, by the very check that let it through the
    first time: [AddRoom] finds its own room, [CancelBooking] its own
    cancellation, [CheckIn] and [CheckOut] the status they set.  The state
    is unchanged by the refused apply. *)
Theorem second_apply_in_a_row_is_refused (w w1 : World) (operation : loc) :
  apply operation w = (Return tt, w1) →
  (∀ n cap p a, heap w !! operation = Some (AddRoom n cap p a) →
     apply operation w1 = (Raise DuplicateRoom, w1))
  ∧ (∀ bid prev, heap w !! operation = Some (CancelBooking bid prev) →
     apply operation w1 = (Raise AlreadyCancelled, w1))
  ∧ (∀ bid prev, heap w !! operation = Some (CheckIn bid prev) →
     apply operation w1 = (Raise InvalidTransition_CheckIn, w1))
  ∧ (∀ bid prev, heap w !! operation = Some (CheckOut bid prev) →
     apply operation w1 = (Raise InvalidTransition_CheckOut, w1)).
Proof.
  intros Hap. change (apply operation) with (do_call (Apply operation)) in Hap.
  rewrite do_call_Apply in Hap.
  destruct (heap w !! operation) as [op|] eqn:Hop; [|done].
  pose proof (lookup_lt_Some _ _ _ Hop) as Hlt.
  destruct (execute_pure op (hotel w)) as [e|[op' h']] eqn:Hex; [done|].
  injection Hap as <-.
  change (apply operation) with (do_call (Apply operation)).
  rewrite do_call_Apply. cbn [heap hotel].
  rewrite list_lookup_insert_eq by done.
  destruct (hotel w) as [rs gs bs ng nb hs].
  split; [|split; [|split]].
  - intros n cap p a [= ->]. cbn in Hex.
    destruct (dict_in n rs); [done|]. injection Hex as <- <-. cbn.
    by rewrite dict_in_insert.
  - intros bid prev [= ->]. cbn in Hex.
    destruct (bs !! bid) as [bk|]; [|done].
    destruct (String.eqb (status bk) "checked_out"); [done|].
    destruct (String.eqb (status bk) "cancelled"); [done|].
    injection Hex as <- <-. cbn. by rewrite lookup_insert_eq.
  - intros bid prev [= ->]. cbn in Hex.
    destruct (bs !! bid) as [bk|]; [|done].
    destruct (negb _); [done|].
    injection Hex as <- <-. cbn. by rewrite lookup_insert_eq.
  - intros bid prev [= ->]. cbn in Hex.
    destruct (bs !! bid) as [bk|]; [|done].
    destruct (negb _); [done|].
    injection Hex as <- <-. cbn. by rewrite lookup_insert_eq.
Qed.

Lemma second_apply_in_a_row_is_refused_witness :
  apply 0%nat odd_room_world = (Return tt, snd (apply 0%nat odd_room_world))
  ∧ apply 0%nat (snd (apply 0%nat odd_room_world))
    = (Raise DuplicateRoom, snd (apply 0%nat odd_room_world)).
Proof.
  split; [by vm_compute|].
  destruct (second_apply_in_a_row_is_refused odd_room_world
              (snd (apply 0%nat odd_room_world)) 0%nat) as (H & _);
    [by vm_compute|].
  apply (H 7 0 (-5) false). by vm_compute.
Defined.

(** Property X14.  A returning [apply] removes nothing.  In any reachable state: the
    history grows by exactly the operation applied; every room and guest
    present before is present after, unchanged; every booking present
    before is present after with at most another status; the counters do
    not decrease; and no operation object other than the one applied is
    touched. *)
Theorem apply_removes_nothing (cs : list call) (operation : loc) (w1 : World) :
  apply operation (run cs init) = (Return tt, w1) →
  history (hotel w1) = history (hotel (run cs init)) ++ [operation]
  ∧ (∀ k r, rooms (hotel (run cs init)) !! k = Some r →
            rooms (hotel w1) !! k = Some r)
  ∧ (∀ k g, guests (hotel (run cs init)) !! k = Some g →
            guests (hotel w1) !! k = Some g)
  ∧ (∀ k b, bookings (hotel (run cs init)) !! k = Some b →
       ∃ b1, bookings (hotel w1) !! k = Some b1 ∧ b1 = set_status (status b1) b)
  ∧ length (heap w1) = length (heap (run cs init))
  ∧ (∀ l, l ≠ operation → heap w1 !! l = heap (run cs init) !! l).
Proof.
  pose proof (run_ids cs init init_ids) as [Hidg Hidb].
  intros Hap. change (apply operation) with (do_call (Apply operation)) in Hap.
  rewrite do_call_Apply in Hap.
  destruct (heap (run cs init) !! operation) as [op|] eqn:Hop; [|done].
  destruct (execute_pure op (hotel (run cs init))) as [e|[op' h']] eqn:Hex; [done|].
  injection Hap as <-. cbn [hotel heap].
  pose proof (execute_pure_history _ _ _ _ Hex) as Hhist.
  split; [destruct h'; cbn in *; congruence|].
  assert (Hsame : ∀ (b : Booking), b = set_status (status b) b) by (by intros []).
  assert (Hrest : length (<[operation := op']> (heap (run cs init)))
                  = length (heap (run cs init))
                  ∧ (∀ l, l ≠ operation →
                       <[operation := op']> (heap (run cs init)) !! l
                       = heap (run cs init) !! l)).
  { split; [apply length_insert|]. intros l Hl. by apply list_lookup_insert_ne. }
  destruct (hotel (run cs init)) as [rs gs bs ng nb hs]. cbn in *.
  destruct op as [n cap p a|nm g0|g r ci co b0|bid prev|bid prev|bid prev];
    cbn in Hex.
  - destruct (dict_in n rs) eqn:Hin; [done|]. injection Hex as <- <-. cbn.
    apply dict_in_false in Hin.
    split; [|split; [done|split; [|done]]].
    + intros k r Hk. rewrite lookup_insert_ne; [done|]. intros <-. congruence.
    + intros k b Hk. exists b. by split.
  - injection Hex as <- <-. cbn.
    split; [done|]. split; [|split; [|done]].
    + intros k g Hk. rewrite lookup_insert_ne; [done|]. intros <-.
      specialize (Hidg ng (mk_is_Some _ _ Hk)). lia.
    + intros k b Hk. exists b. by split.
  - destruct (negb (dict_in g gs)); [done|].
    destruct (negb (dict_in r rs)); [done|].
    destruct (date_ge ci co); [done|].
    destruct (negb _); [done|]. injection Hex as <- <-. cbn.
    split; [done|]. split; [done|]. split; [|done].
    intros k b Hk. exists b. split; [|done].
    rewrite lookup_insert_ne; [done|]. intros <-.
    specialize (Hidb nb (mk_is_Some _ _ Hk)). lia.
  - destruct (bs !! bid) as [bk|] eqn:Hbk; [|done].
    destruct (String.eqb (status bk) "checked_out"); [done|].
    destruct (String.eqb (status bk) "cancelled"); [done|].
    injection Hex as <- <-. cbn.
    split; [done|]. split; [done|]. split; [|done].
    intros k b Hk. destruct (decide (bid = k)) as [<-|Hne].
    + rewrite lookup_insert_eq. eexists. split; [done|]. cbn. congruence.
    + rewrite lookup_insert_ne by done. exists b. by split.
  - destruct (bs !! bid) as [bk|] eqn:Hbk; [|done].
    destruct (negb _); [done|].
    injection Hex as <- <-. cbn.
    split; [done|]. split; [done|]. split; [|done].
    intros k b Hk. destruct (decide (bid = k)) as [<-|Hne].
    + rewrite lookup_insert_eq. eexists. split; [done|]. cbn. congruence.
    + rewrite lookup_insert_ne by done. exists b. by split.
  - destruct (bs !! bid) as [bk|] eqn:Hbk; [|done].
    destruct (negb _); [done|].
    injection Hex as <- <-. cbn.
    split; [done|]. split; [done|]. split; [|done].
    intros k b Hk. destruct (decide (bid = k)) as [<-|Hne].
    + rewrite lookup_insert_eq. eexists. split; [done|]. cbn. congruence.
    + rewrite lookup_insert_ne by done. exists b. by split.
Qed.

Lemma apply_removes_nothing_witness :
  apply 3%nat (run (booked_trace ++ [Construct (NewCheckIn 1)]) init)
  = (Return tt, snd (apply 3%nat (run (booked_trace ++ [Construct (NewCheckIn 1)]) init)))
  ∧ history (hotel (snd (apply 3%nat
                           (run (booked_trace ++ [Construct (NewCheckIn 1)]) init))))
    = history (hotel (run (booked_trace ++ [Construct (NewCheckIn 1)]) init)) ++ [3%nat].
Proof.
  split; [by vm_compute|].
  apply (apply_removes_nothing (booked_trace ++ [Construct (NewCheckIn 1)]) 3%nat).
  by vm_compute.
Defined.

(** ** The history holds executed operations *)

Lemma has_executed_execute (op op' : Operation) (h h' : Hotel) :
  execute_pure op h = inr (op', h') → has_executed op'.
Proof.
  destruct op; cbn;
    repeat (match goal with
            | |- context [match ?x with _ => _ end] => destruct x; cbn
            end); intros Hex; try done; injection Hex as <- <-; cbn; done.
Qed.

Lemma executed_history_do_call (c : call) (w : World) :
  (∀ l, l ∈ history (hotel w) → ∃ op, heap w !! l = Some op ∧ has_executed op) →
  ∀ l, l ∈ history (hotel (snd (do_call c w))) →
    ∃ op, heap (snd (do_call c w)) !! l = Some op ∧ has_executed op.
Proof.
  intros Hinv.
  destruct (do_call_cases c w)
    as [(k & _ & ->)|[->|[(l & op & op' & h' & _ & Hl & Hex & ->)
       |[(hs & l & op & _ & Hh & Hl & ->)|(hs & l & _ & Hh & Hl & ->)]]]];
    cbn [hotel heap]; try done.
  - intros l Hl. destruct (Hinv l Hl) as (op & Hop & Hx). exists op. split; [|done].
    rewrite lookup_app_l; [done|]. by apply lookup_lt_Some in Hop.
  - intros l0 Hl0.
    replace (history (set_history (λ hs, hs ++ [l]) h'))
      with (history (hotel w) ++ [l]) in Hl0
      by (pose proof (execute_pure_history _ _ _ _ Hex); destruct h'; cbn in *; congruence).
    destruct (decide (l = l0)) as [<-|Hne].
    + exists op'. split; [|by apply (has_executed_execute op op' (hotel w) h')].
      apply list_lookup_insert_eq. by apply lookup_lt_Some in Hl.
    + rewrite list_lookup_insert_ne by done. apply Hinv.
      apply elem_of_app in Hl0 as [Hl0|Hl0]; [done|].
      apply list_elem_of_singleton in Hl0. congruence.
  - intros l0 Hl0.
    destruct (undo_hotel_counters op (set_history (λ _, hs) (hotel w)))
      as (_ & _ & Hhist). rewrite Hhist in Hl0.
    apply Hinv. rewrite Hh. apply elem_of_app. left. by destruct (hotel w).
  - intros l0 Hl0. apply Hinv. rewrite Hh. apply elem_of_app. left.
    by destruct (hotel w).
Qed.

(** Property X15.  In every state reached from a fresh hotel by any sequence of calls,
    every entry of the history refers to an operation object that carries
    what its [undo] needs: an [AddRoom] with [_added] set, a
    [RegisterGuest] or [CreateBooking] with its assigned id, a status
    operation with the previous status. *)
Theorem history_holds_executed_operations (cs : list call) :
  ∀ l, l ∈ history (hotel (run cs init)) →
    ∃ op, heap (run cs init) !! l = Some op ∧ has_executed op.
Proof.
  apply (run_invariant (λ w, ∀ l, l ∈ history (hotel w) →
                              ∃ op, heap w !! l = Some op ∧ has_executed op)).
  - intros c w. apply executed_history_do_call.
  - intros l Hl. by apply elem_of_nil in Hl.
Qed.

Lemma history_holds_executed_operations_witness :
  4%nat ∈ history (hotel (run driver_trace init))
  ∧ ∃ op, heap (run driver_trace init) !! 4%nat = Some op ∧ has_executed op.
Proof.
  assert (Hin : 4%nat ∈ history (hotel (run driver_trace init))).
  { apply list_elem_of_In. vm_compute. tauto. }
  split; [done|].
  by apply (history_holds_executed_operations driver_trace 4%nat).
Defined.
